(* ===== verification/_CoqProject ===== *)
-Q . S2P
Prelude.v
Constants.v
Image.v
Frames.v
Player.v
Machine.v
Loop.v
Equiv.v
Render.v
Scenarios.v
