(* ===== verification/Prelude.v ===== *)
(** * The player controller of bouncy-shoes: a verification development

    The repository is a small pygame platformer.  Its core is the class
    [Player] of [src/data/sprites/player.py], which reads its configuration
    from [src/data/constants.py].  The parts, and how they interact:

    - the constants module [constants.py] is a Python module of plain
      assignments.  [player.py] reads seven of its names as [c.NAME]: the
      three state names, the two directions, [SLOWEST_FREQUENCY] and
      [START_JUMP_VEL].  The module defines no [JUMPING].
    - the image provider ([tools.get_image], [pygame.transform.flip],
      [image.get_rect]) cuts frames out of the sprite sheets of [setup.GFX]
      and mirrors them.
    - the frame-set builders ([make_walking_image_list],
      [make_walking_image_dict], [make_standing_image_dict],
      [make_jumping_image_dict]) run once, in [Player.__init__].
    - the controller ([update], dispatching through [self.state_dict] to
      [standing], [walking] or [jumping], which call [animate],
      [get_animation_speed] and [enter_jump_state]) is called once per
      frame by the game loop.  It mutates the player's attributes and picks
      [self.image].

    ** Files, in dependency order

    - [Prelude] (this file) is the Python runtime the model needs.  It holds
      the exceptions [exn] and the state-and-error monad [PyM] of a method
      acting on [self], with its notation [x <- m ;; k] in [py_scope].  It
      has list indexing with negative indices ([py_getitem]), [pop(-1)]
      ([py_pop_last]), [range] ([py_range]), dict displays and subscription
      ([py_dict], [dict_getitem]) and comparisons on numbers, with their
      lemmas, the hint database [py] and the rewrite database [py_rw].
    - [Constants] is [constants.py].  [constants_ns] is the module namespace
      as a [gmap] and [Consts] the record of the seven names [player.py]
      reads.  [load_consts] reads them, raising [AttributeError] for a
      missing one.  [consts_fixed] is the module with [JUMPING = 'jumping']
      added, the fix the code calls for.
    - [Image] is the interface [ImageProvider] the rest is written against,
      the laws a provider promises its clients ([ImageLaws]: an equivalence
      of images that [get_image], [flip] and the sizes respect, and [flip]
      undone by [flip]), and the instance [raster] (sized pixel functions)
      with the extensional equivalence [raster_equiv].
    - [Frames] holds the four builders, line for line, in a Section over the
      provider, the constants [c] and the sheets [GFX].
    - [Player] is the class.  The record [Player] holds its attributes, and
      each method is a [PyM Player] computation.  [Player_init] is
      [__init__] and [player_new] is [Player()], constants included.  The
      invariant [wf_player] is here, with the proof that [update] never
      raises and keeps it.
    - [Machine] is the spec's transition table as a step relation [astep]
      on abstract states, with [reachable] and its invariant [a_inv].  It
      also holds the refinement relation [refines] and the forward
      simulation [update_refines], from which the per-tick theorems
      follow.
    - [Loop] is the game loop [run_updates] (modelled from the spec, since
      [tools.py] is not among the sources), the loop with its rendered
      frames [run_frames], a whole session [play], and the theorems about
      whole lifetimes of a player, the bounded wait for the next walk frame
      on a steady clock included.
    - [Equiv] lifts the provider's image equivalence to players
      ([player_rel]), results ([res_rel]) and methods ([pym_rel]), proves
      every method, the constructor and the loop compatible with it.  This
      is a parametricity result: it holds of any controller written against
      the provider's interface, so it is kept as a library fact about the
      model rather than as a property of [player.py].
    - [Render] reads each abstract frame of the spec's table as the image
      the builders lay out for it ([frame_of]), and proves that a session
      renders exactly those images.  It also holds the spec's scenario B in
      general and the rendering of a whole walk cycle.
    - [Scenarios] instantiates everything with test sheets and
      [consts_fixed].  It evaluates the table's trace of a short session
      ([shown_trace_example]) and applies each theorem with hypotheses at
      a concrete player.

    ** What the theorems show

    Each theorem the development is about has a doc comment naming its
    claim.  The reusable results behind them are separate lemmas
    ([update_step], [Player_init_closed], [walking_dict_closed],
    [make_state_dict_lookup], [get_animation_speed_run], [animate_run],
    [run_updates_refines]), so that each claim stands on its own.

    - Construction: [Player()] of the repository raises [AttributeError]
      ([player_new_constants_py]).  With [JUMPING] defined and the three
      sheets present, [__init__] builds a well-formed standing player
      ([Player_init_spec]).  A missing sheet raises [KeyError]
      ([Player_init_missing_sheet]).
    - Frames: the right walk cycle is cells 0..10 of the 6 x 2 grid in
      row-major order; the left one is its mirror, pixel for pixel on
      rasters, and so is the left standing pose, on the dictionaries
      [__init__] builds ([walking_frames_pixels], the spec's P4); the
      jumping poses are two separate cells.
    - Safety and errors: [update] never raises from a well-formed player and
      keeps it well-formed ([update_wf]).  The dispatch table has a method
      for exactly the three state names ([state_coverage]); any other state
      raises [KeyError] ([update_unknown_state]), and a cursor outside the
      cycle raises [IndexError] ([walking_index_error]).
    - Refinement: each [update] is a step of the abstract machine
      ([update_refines]), and the loop follows every run of the machine
      ([run_updates_trace]).  On the output side, [Player()] followed by the
      loop renders, tick by tick, the image of the frame the table's run from
      its initial state shows ([play_renders_table]): the renderer receives
      nothing the spec's state machine does not determine.
    - Behaviour of a tick: the state table ([update_state_table]), Right
      beats Left ([update_direction]), jump entry ([update_jump_entry]), the
      standing transitions and their cursor reset ([update_standing]), the
      static jumping pose ([update_jumping]), pacing ([animate_spec],
      [update_walking_pacing], [get_animation_speed_sign], and
      [animate_fast_always_advances] for a large [x_vel]), and the frame
      shown with the frame sets kept read-only ([update_shows]).
      [JUMP_BUTTON] plays no part ([update_ignores_jump_button]).  The
      dispatch table is equivalent to one exhaustive match on the state
      ([update_by_match_equiv]), as the spec's design notes propose.
    - Lifetime: from construction, any sequence of ticks keeps the cursor in
      [0, 11), [x_vel = 0], and [y_vel] at [0] or the launch value
      ([player_lifetime]).  A jump never ends ([jump_is_final]).  Over many
      ticks the pacing gate holds ([pacing_gate]) and paced ticks move the
      cursor once per tick around the cycle ([walk_cycle_paced]).  The
      animation timer only ever holds a clock value ([timer_from_clock]).
      Eleven paced ticks render the whole walk cycle once, in order from the
      cursor ([walk_cycle_renders]).
    - The spec's end-to-end scenarios, for all inputs that satisfy their
      premises: scenario A from construction, for every clock, with the
      gate's boundary [t2 - t1 = SLOWEST_FREQUENCY] included
      ([walk_start_pacing]); scenario B, turning while walking keeps the
      phase and shows the mirrored frame ([turn_keeps_phase]); scenario C
      is [jump_is_final] with the jump entry of [update_jump_entry].
    - Termination of a wait: on a clock that advances by a steady [delta > 0]
      per tick, a walking player keeps its frame for fewer than
      [frame_wait delta = 1 + floor(SLOWEST_FREQUENCY / delta)] ticks and has
      moved to the next frame after exactly that many ([next_frame_within]).

    ** Bounds and choices

    Python ints are [Z], with no width: the code's ints (index, pixel
    offsets, the constants) are small and Python's are unbounded.  Times,
    [dt] and velocities are rationals [Q].  [pygame.time.get_ticks] returns
    ints and [x_vel] is always the int [0], so every comparison the code
    makes on them is exact.  Float rounding of a non-zero [x_vel * 11 * dt]
    is not modelled.  Every definition is structurally recursive and needs
    no fuel; the one bound, [frame_wait], is exact: it is the first tick
    count [k] with [k * delta > SLOWEST_FREQUENCY] ([Qfloor_mul_le],
    [Qfloor_mul_gt]).  The walk cycle has 11 frames, which is what [__init__] builds.
    The theorems hold for any cycle length [N > 0] given to [refines].

    ** Not modelled

    Asset loading ([setup.GFX], a parameter here), rendering, the sprite
    group of [pygame.sprite.Sprite], the event handling of the game loop and
    the parts of the repository that read the other constants (menus,
    levels, item boxes) are not modelled: they are I/O or code outside the
    sources.  The colour key and any scaling in [tools.get_image] are not
    modelled either.  [tools.get_image] and [pygame.transform.flip] are
    outside the sources: they are the interface [ImageProvider] with its
    laws and one pixel-level instance, so that component is partly modelled.
    The game loop is modelled from the spec only.

    The keyboard is [pygame.key.get_pressed()], a library call.  The model
    takes it as a total map [Keys] from key codes to booleans.  That is what
    subscripting pygame 1's snapshot gives: the snapshot is a tuple with one
    entry per key code up to [SDLK_LAST = 323], and the controller reads
    only codes 275, 276 and 32.  The spec's case of a missing key, to be
    read as not pressed, cannot arise from [get_pressed], so the model has no
    [IndexError] for key reads.

    An exception ends the session: neither the controller nor the loop
    catches one.  [PyM] therefore returns the exception without the state of
    [self] at the raise.  Python would keep the attributes assigned before
    the raise, but nothing reads them afterwards.

    ** Plan for further work

    Every operation of [player.py] and every assignment of [constants.py]
    is modelled, and the map covers every non-blank line of the two
    sources.  What the sources leave to other modules ([tools], [setup],
    the game loop) is modelled from the spec as far as the controller
    depends on it.  Going further would mean modelling pygame itself.  A
    model of [pygame.Rect] movement is left for the day the repository's
    controller moves the player. *)

From stdpp Require Export base gmap strings list.
From Stdlib Require Export ZArith QArith Qabs Qround Lqa.

Declare Scope py_scope.
Delimit Scope py_scope with py.
Open Scope py_scope.

(** ** Python exceptions the modelled code can raise *)

Inductive exn :=
  | AttributeError (name : string)
  | KeyError (key : string)
  | IndexError (what : string)
  | TypeError (what : string).

#[export] Instance exn_eq_dec : EqDecision exn.
Proof. solve_decision. Defined.

(** A computation that returns a value or raises. *)
Definition Result (A : Type) : Type := (exn + A)%type.

(** A method of an object with attributes [S]: it reads and writes [self]
    and returns or raises. *)
Definition PyM (S A : Type) : Type := S -> Result (A * S).

(** ** One notation for both monads *)

Class PyMonad (m : Type -> Type) := {
  pret : forall {A}, A -> m A;
  pbind : forall {A B}, m A -> (A -> m B) -> m B
}.
Arguments pret {m _ A} _.
Arguments pbind {m _ A B} _ _.

Notation "x <- c ;; k" := (pbind c (fun x => k))
  (at level 100, c at next level, right associativity) : py_scope.
Notation "c ;; k" := (pbind c (fun _ : unit => k))
  (at level 100, right associativity) : py_scope.

#[export] Instance result_monad : PyMonad Result := {
  pret A x := inr x;
  pbind A B m f := match m with inl e => inl e | inr a => f a end
}.

#[export] Instance pym_monad (S : Type) : PyMonad (PyM S) := {
  pret A x := fun s => inr (x, s);
  pbind A B m f := fun s =>
    match m s with inl e => inl e | inr (a, s') => f a s' end
}.

Section PyMOps.
Context {S : Type}.

Definition raise {A} (e : exn) : PyM S A := fun _ => inl e.
Definition gets {A} (f : S -> A) : PyM S A := fun s => inr (f s, s).
Definition modify (f : S -> S) : PyM S unit := fun s => inr (tt, f s).
Definition lift {A} (r : Result A) : PyM S A :=
  fun s => match r with inl e => inl e | inr a => inr (a, s) end.
Definition skip : PyM S unit := pret tt.
End PyMOps.

(** ** Python builtins on lists, dicts and numbers *)

(** [l[i]]: a negative index counts from the end; out of range raises. *)
Definition py_getitem {A} (l : list A) (i : Z) : Result A :=
  let n := Z.of_nat (length l) in
  let j := if (i <? 0)%Z then (i + n)%Z else i in
  match (if (0 <=? j)%Z then l !! Z.to_nat j else None) with
  | Some x => inr x
  | None => inl (IndexError "list index out of range")
  end.

(** [l.pop(-1)]: the list without its last element, and that element. *)
Definition py_pop_last {A} (l : list A) : Result (list A * A) :=
  match rev l with
  | [] => inl (IndexError "pop from empty list")
  | x :: r => inr (rev r, x)
  end.

(** [range(n)]. *)
Definition py_range (n : Z) : list Z := map Z.of_nat (seq 0 (Z.to_nat n)).

(** A dict display [{k1: v1, k2: v2, ...}]: evaluated left to right, a later
    key overwrites an earlier one. *)
Definition py_dict {V} (kvs : list (string * V)) : gmap string V :=
  foldl (fun m kv => <[kv.1 := kv.2]> m) ∅ kvs.

(** [d[k]]. *)
Definition dict_getitem {V} (d : gmap string V) (k : string) : Result V :=
  match d !! k with Some v => inr v | None => inl (KeyError k) end.

(** [a > b] and [a == b] on numbers. *)
Definition py_gt (a b : Q) : bool := negb (Qle_bool a b).
Definition py_eq (a b : Q) : bool := Qeq_bool a b.

(** ** Generic lemmas *)

Create HintDb py.
Create Rewrite HintDb py_rw.

Lemma bind_ret_l_result {A B} (x : A) (f : A -> Result B) :
  pbind (pret x) f = f x.
Proof. reflexivity. Qed.

Lemma bind_assoc_result {A B C} (m : Result A) (f : A -> Result B)
  (g : B -> Result C) :
  pbind (pbind m f) g = pbind m (fun a => pbind (f a) g).
Proof. by destruct m. Qed.

Lemma bind_assoc_pym {S A B C} (m : PyM S A) (f : A -> PyM S B)
  (g : B -> PyM S C) (s : S) :
  pbind (pbind m f) g s = pbind m (fun a => pbind (f a) g) s.
Proof. simpl. by destruct (m s) as [|[]]. Qed.

Lemma py_getitem_nat {A} (l : list A) (k : nat) :
  py_getitem l (Z.of_nat k) =
  match l !! k with
  | Some x => inr x
  | None => inl (IndexError "list index out of range")
  end.
Proof.
  unfold py_getitem.
  destruct (Z.ltb_spec (Z.of_nat k) 0); [lia|].
  destruct (Z.leb_spec 0 (Z.of_nat k)); [|lia].
  by rewrite Nat2Z.id.
Qed.

Lemma py_getitem_in_range {A} (l : list A) (i : Z) :
  (0 <= i < Z.of_nat (length l))%Z ->
  exists x, l !! Z.to_nat i = Some x /\ py_getitem l i = inr x.
Proof.
  intros Hi.
  destruct (lookup_lt_is_Some_2 l (Z.to_nat i)) as [x Hx]; [lia|].
  exists x. split; [done|].
  rewrite <- (Z2Nat.id i) by lia. by rewrite py_getitem_nat, Hx.
Qed.

Lemma py_getitem_negative {A} (l : list A) (i : Z) :
  (- Z.of_nat (length l) <= i < 0)%Z ->
  py_getitem l i = py_getitem l (i + Z.of_nat (length l)).
Proof.
  intros Hi. unfold py_getitem.
  destruct (Z.ltb_spec i 0); [|lia].
  destruct (Z.ltb_spec (i + Z.of_nat (length l)) 0); [lia|]. done.
Qed.

Lemma py_getitem_out_of_range {A} (l : list A) (i : Z) :
  (i < - Z.of_nat (length l) \/ Z.of_nat (length l) <= i)%Z ->
  py_getitem l i = inl (IndexError "list index out of range").
Proof.
  intros Hi. unfold py_getitem.
  destruct (Z.ltb_spec i 0).
  - destruct (Z.leb_spec 0 (i + Z.of_nat (length l))); [lia|done].
  - destruct (Z.leb_spec 0 i); [|done].
    rewrite lookup_ge_None_2; [done|lia].
Qed.

Lemma py_pop_last_snoc {A} (l : list A) (x : A) :
  py_pop_last (l ++ [x]) = inr (l, x).
Proof. unfold py_pop_last. by rewrite rev_unit, rev_involutive. Qed.

Lemma py_pop_last_nil {A} :
  py_pop_last (@nil A) = inl (IndexError "pop from empty list").
Proof. reflexivity. Qed.

Lemma length_py_range (n : Z) : length (py_range n) = Z.to_nat n.
Proof. unfold py_range. by rewrite length_map, length_seq. Qed.

(** Two maps over one list, related pointwise. *)
Lemma Forall2_map_pointwise {A B} (R : B -> B -> Prop) (f g : A -> B) (l : list A) :
  (forall x, R (f x) (g x)) -> Forall2 R (map f l) (map g l).
Proof. intros H. induction l; simpl; constructor; auto. Qed.

Lemma Forall2_map_l {A} (R : A -> A -> Prop) (f : A -> A) (l : list A) :
  (forall x, R (f x) x) -> Forall2 R (map f l) l.
Proof. intros H. induction l; simpl; constructor; auto. Qed.

(** Below the floor: for [0 < d], the multiples [j * d] with
    [1 <= j <= floor (s / d)] stay at most [s]. *)
Lemma Qfloor_mul_le (s d : Q) (j : nat) :
  (0 < d)%Q -> (S j <= Z.to_nat (Qfloor (s / d)))%nat ->
  (inject_Z (Z.of_nat (S j)) * d <= s)%Q.
Proof.
  intros Hd Hj.
  assert (Hf : (inject_Z (Z.of_nat (S j)) <= inject_Z (Qfloor (s / d)))%Q)
    by (rewrite <- Zle_Qle; lia).
  pose proof (Qfloor_le (s / d)) as Hfl.
  assert (E : (s / d * d == s)%Q) by (field; intros E0; lra).
  rewrite <- E. apply Qmult_le_compat_r; lra.
Qed.

(** Past the floor: [(floor (s / d) + 1) * d] exceeds [s]. *)
Lemma Qfloor_mul_gt (s d : Q) :
  (0 < d)%Q -> (s < inject_Z (Z.of_nat (S (Z.to_nat (Qfloor (s / d))))) * d)%Q.
Proof.
  intros Hd. pose proof (Qlt_floor (s / d)) as Hfl.
  assert (Hf : (inject_Z (Qfloor (s / d) + 1) <=
                inject_Z (Z.of_nat (S (Z.to_nat (Qfloor (s / d))))))%Q)
    by (rewrite <- Zle_Qle; lia).
  assert (E : (s / d * d == s)%Q) by (field; intros E0; lra).
  rewrite <- E at 1. apply Qmult_lt_compat_r; lra.
Qed.

Lemma py_dict_snoc {V} (kvs : list (string * V)) (k : string) (v : V) :
  py_dict (kvs ++ [(k, v)]) = <[k := v]> (py_dict kvs).
Proof. unfold py_dict. by rewrite foldl_app. Qed.

(** The value of a key in a dict display is the last one written for it. *)
Lemma py_dict_lookup {V} (kvs : list (string * V)) (k : string) :
  py_dict kvs !! k = snd <$> last (filter (fun kv => kv.1 = k) kvs).
Proof.
  induction kvs as [|[k' v] kvs IH] using rev_ind; [done|].
  rewrite py_dict_snoc, filter_app, filter_cons, filter_nil. simpl.
  destruct (decide (k' = k)) as [->|Hne].
  - by rewrite lookup_insert_eq, last_snoc.
  - by rewrite app_nil_r, lookup_insert_ne.
Qed.

Lemma dict_getitem_Some {V} (d : gmap string V) k v :
  d !! k = Some v -> dict_getitem d k = inr v.
Proof. unfold dict_getitem. by intros ->. Qed.

Lemma dict_getitem_None {V} (d : gmap string V) k :
  d !! k = None -> dict_getitem d k = inl (KeyError k).
Proof. unfold dict_getitem. by intros ->. Qed.

Lemma py_gt_spec (a b : Q) : py_gt a b = true <-> b < a.
Proof.
  unfold py_gt. rewrite negb_true_iff, <- not_true_iff_false, Qle_bool_iff.
  split; [apply Qnot_le_lt | apply Qlt_not_le].
Qed.

Lemma py_gt_false (a b : Q) : py_gt a b = false <-> a <= b.
Proof.
  unfold py_gt. rewrite negb_false_iff. apply Qle_bool_iff.
Qed.

#[export] Instance py_gt_proper : Proper (Qeq ==> Qeq ==> eq) py_gt.
Proof. intros a a' Ha b b' Hb. unfold py_gt. by rewrite Ha, Hb. Qed.

#[export] Instance py_eq_proper : Proper (Qeq ==> Qeq ==> eq) py_eq.
Proof. intros a a' Ha b b' Hb. unfold py_eq. by rewrite Ha, Hb. Qed.

#[export] Hint Rewrite @py_pop_last_snoc @py_getitem_nat @py_dict_snoc
  @lookup_insert_eq : py_rw.
#[export] Hint Resolve dict_getitem_Some dict_getitem_None : py.

(** Unfold the monad plumbing of a goal. *)
Ltac py_unfold :=
  cbn [pbind pret result_monad pym_monad raise gets modify lift skip] in *.
