(* ===== verification/Constants.v ===== *)
(** * [src/data/constants.py]: the configuration module

    The module is a list of assignments.  Its namespace is modelled as the
    dict [constants_ns] from names to Python values, in the order of the
    assignments.  [player.py] imports it as [c] and reads seven of the
    names.  [Consts] is the record of those seven and [load_consts] reads
    them through the namespace.  An absent name raises [AttributeError], as
    [c.NAME] does.  The names are read in the order [Player.__init__] first
    touches them.  The two numbers are read there too: the code reads them
    lazily, in [get_animation_speed] and [enter_jump_state], and this is the
    one change of order the model makes. *)

From S2P Require Import Prelude.

(** ** Python values of the module *)

#[local] Set Warnings "-register-all".

Inductive pyval :=
  | PyInt (n : Z)
  | PyStr (s : string)
  | PyTuple (vs : list pyval)
  | PyModule (name : string).

(** The key codes of pygame that the repository uses.  They are ints in
    pygame.  The values are those of pygame 1.9 (SDL 1), which this code
    base was written for.  Only their distinctness matters below. *)
Module Pygame.
Definition K_SPACE : Z := 32.
Definition K_a : Z := 97.
Definition K_s : Z := 115.
Definition K_RIGHT : Z := 275.
Definition K_LEFT : Z := 276.
End Pygame.

(** ** The namespace of the module *)

Definition constants_ns : gmap string pyval :=
  py_dict [
    ("pg", PyModule "pygame");
    ("BLACK", PyTuple [PyInt 0; PyInt 0; PyInt 0]);
    ("WHITE", PyTuple [PyInt 255; PyInt 255; PyInt 255]);
    ("LEVEL1", PyStr "level1");
    ("MAIN_MENU", PyStr "main menu");
    ("NORMAL", PyStr "normal");
    ("STANDING", PyStr "standing");
    ("WALKING", PyStr "walking");
    ("FREE_FALL", PyStr "free fall");
    ("SLOWEST_FREQUENCY", PyInt 100);
    ("START_JUMP_VEL", PyInt (-1020));
    ("GRAVITY", PyInt 2520);
    ("RUN_SPEED", PyInt 600);
    ("WALK_SPEED", PyInt 350);
    ("MAIN_FONT", PyStr "DroidSans");
    ("RIGHT", PyStr "right");
    ("LEFT", PyStr "left");
    ("JUMP_BUTTON", PyInt Pygame.K_a);
    ("RUN_BUTTON", PyInt Pygame.K_s);
    ("BUMPED", PyStr "bumped");
    ("OPENED", PyStr "opened");
    ("BUMP_SPEED", PyInt (-1000));
    ("BUMP_GRAVITY", PyInt 6000)
  ].

(** ** The constants [player.py] reads *)

Record Consts := {
  STANDING : string;
  WALKING : string;
  JUMPING : string;
  RIGHT : string;
  LEFT : string;
  SLOWEST_FREQUENCY : Z;
  START_JUMP_VEL : Z
}.

(** [c.NAME]: attribute access on the module. *)
Definition getattr (ns : gmap string pyval) (name : string) : Result pyval :=
  match ns !! name with
  | Some v => inr v
  | None => inl (AttributeError name)
  end.

(** The model keeps the types [constants.py] gives these names.  A value of
    another type is refused with [TypeError]; Python would carry it on. *)
Definition getattr_str (ns : gmap string pyval) (name : string) : Result string :=
  v <- getattr ns name ;;
  match v with PyStr s => pret s | _ => inl (TypeError name) end.

Definition getattr_int (ns : gmap string pyval) (name : string) : Result Z :=
  v <- getattr ns name ;;
  match v with PyInt n => pret n | _ => inl (TypeError name) end.

Definition load_consts (ns : gmap string pyval) : Result Consts :=
  standing <- getattr_str ns "STANDING" ;;
  walking <- getattr_str ns "WALKING" ;;
  jumping <- getattr_str ns "JUMPING" ;;
  right <- getattr_str ns "RIGHT" ;;
  left <- getattr_str ns "LEFT" ;;
  slowest <- getattr_int ns "SLOWEST_FREQUENCY" ;;
  jump_vel <- getattr_int ns "START_JUMP_VEL" ;;
  pret {| STANDING := standing; WALKING := walking; JUMPING := jumping;
          RIGHT := right; LEFT := left; SLOWEST_FREQUENCY := slowest;
          START_JUMP_VEL := jump_vel |}.

(** What the controller needs of the constants: the three state names are
    distinct dictionary keys, and so are the two directions. *)
Definition consts_wf (c : Consts) : Prop :=
  c.(STANDING) <> c.(WALKING) /\ c.(STANDING) <> c.(JUMPING) /\
  c.(WALKING) <> c.(JUMPING) /\ c.(RIGHT) <> c.(LEFT).

#[export] Instance consts_wf_dec (c : Consts) : Decision (consts_wf c).
Proof. unfold consts_wf. apply _. Defined.

(** The module as its code means it to be: [constants.py] with the missing
    [JUMPING = 'jumping'] added, next to [STANDING] and [WALKING]. *)
Definition constants_fixed_ns : gmap string pyval :=
  <["JUMPING" := PyStr "jumping"]> constants_ns.

Definition consts_fixed : Consts := {|
  STANDING := "standing"; WALKING := "walking"; JUMPING := "jumping";
  RIGHT := "right"; LEFT := "left"; SLOWEST_FREQUENCY := 100;
  START_JUMP_VEL := -1020 |}.

(** Loading the seven constants from the module [constants.py] defines
    fails: [player.py] reads [c.JUMPING], and the module has no such name.
    [Player()] raises [AttributeError] in [make_state_dict]. *)
Theorem load_consts_constants_py :
  load_consts constants_ns = inl (AttributeError "JUMPING").
Proof. vm_compute. reflexivity. Qed.

(** With [JUMPING = 'jumping'] added, the constants load.  They are the
    values of [constants.py], and they satisfy [consts_wf]. *)
Lemma load_consts_fixed :
  load_consts constants_fixed_ns = inr consts_fixed.
Proof. vm_compute. reflexivity. Qed.

Lemma consts_fixed_wf : consts_wf consts_fixed.
Proof. unfold consts_wf; simpl. repeat split; discriminate. Qed.

