(* ===== verification/Image.v ===== *)
(** * The image provider: [tools.get_image] and [pygame.transform.flip]

    [player.py] uses images through four operations.  [get_image(x, y,
    width, height, sheet)] of the repository's [tools] module cuts a frame
    out of a sheet.  [tools.py] is not among the sources, so this follows the
    spec's image provider: a [width x height] frame whose pixel [(i, j)] is
    the sheet's pixel [(x + i, y + j)].  Outside the sheet, blitting clips,
    so the pixel stays the frame's fill colour.  [pygame.transform.flip(image,
    xbool, ybool)] mirrors an image, and [image.get_rect(y=...)] reads its
    size.

    [ImageProvider] is the interface the frame builders and the controller
    are written against.  [raster] is an instance with pixel semantics.
    Equality of rasters is the extensional [raster_equiv] (same size, same
    pixels inside the size).  [get_image] and [flip] respect it, and flipping
    twice gives back an equivalent image. *)

From S2P Require Import Prelude.
From Stdlib Require Import Morphisms.
Open Scope Z_scope.

(** ** The interface *)

Class ImageProvider (img : Type) := {
  get_image : Z -> Z -> Z -> Z -> img -> img;
  flip : img -> bool -> bool -> img;
  get_width : img -> Z;
  get_height : img -> Z
}.

(** [pygame.Rect]. *)
Record Rect := { rect_x : Z; rect_y : Z; rect_w : Z; rect_h : Z }.

(** [image.get_rect(y=y)]: a rect of the image's size at [(0, y)]. *)
Definition get_rect_y {img} `{ImageProvider img} (image : img) (y : Z) : Rect :=
  {| rect_x := 0; rect_y := y; rect_w := get_width image;
     rect_h := get_height image |}.

(** ** Rasters: images as sized pixel functions *)

(** A colour is an RGB triple packed in an int, as pygame maps them. *)
Definition color := Z.
Definition fill_color : color := 0.

Record raster := {
  rw : Z;
  rh : Z;
  rpx : Z -> Z -> color
}.

Definition in_bounds (r : raster) (i j : Z) : Prop :=
  (0 <= i < rw r)%Z /\ (0 <= j < rh r)%Z.

#[export] Instance in_bounds_dec r i j : Decision (in_bounds r i j).
Proof. unfold in_bounds. apply _. Defined.

Definition raster_get_image (x y w h : Z) (sheet : raster) : raster := {|
  rw := w; rh := h;
  rpx i j := if decide (in_bounds sheet (x + i) (y + j))
             then rpx sheet (x + i) (y + j) else fill_color |}.

Definition raster_flip (r : raster) (xbool ybool : bool) : raster := {|
  rw := rw r; rh := rh r;
  rpx i j := rpx r (if xbool then rw r - 1 - i else i)%Z
                   (if ybool then rh r - 1 - j else j)%Z |}.

#[export] Instance raster_provider : ImageProvider raster := {
  get_image := raster_get_image;
  flip := raster_flip;
  get_width := rw;
  get_height := rh
}.

(** Two rasters are the same picture. *)
Definition raster_equiv (a b : raster) : Prop :=
  rw a = rw b /\ rh a = rh b /\
  forall i j, in_bounds a i j -> rpx a i j = rpx b i j.

#[export] Instance raster_equiv_equivalence : Equivalence raster_equiv.
Proof.
  split.
  - intros a. by repeat split.
  - intros a b (Hw & Hh & Hp). repeat split; [done|done|].
    intros i j [Hi Hj]. symmetry. apply Hp. split; lia.
  - intros a b c (Hw1 & Hh1 & Hp1) (Hw2 & Hh2 & Hp2).
    repeat split; [congruence|congruence|].
    intros i j [Hi Hj]. rewrite Hp1 by (split; lia). apply Hp2. split; lia.
Qed.

(** ** Laws of the raster provider *)

Lemma in_bounds_flip (r : raster) (xb yb : bool) (i j : Z) :
  in_bounds r i j ->
  in_bounds r (if xb then rw r - 1 - i else i)%Z
              (if yb then rh r - 1 - j else j)%Z.
Proof. intros [Hi Hj]. destruct xb, yb; split; lia. Qed.

#[export] Instance raster_flip_proper :
  Proper (raster_equiv ==> eq ==> eq ==> raster_equiv) raster_flip.
Proof.
  intros a b (Hw & Hh & Hp) xb ? <- yb ? <-.
  do 2 (split; [simpl; done|]).
  intros i j Hij. simpl. rewrite <- Hw, <- Hh. apply Hp.
  by apply in_bounds_flip.
Qed.

#[export] Instance raster_get_image_proper x y w h :
  Proper (raster_equiv ==> raster_equiv) (raster_get_image x y w h).
Proof.
  intros a b Hab. pose proof Hab as (Hw & Hh & Hp).
  do 2 (split; [simpl; done|]).
  intros i j _. simpl.
  destruct (decide (in_bounds a _ _)) as [Ha|Ha],
    (decide (in_bounds b _ _)) as [Hb|Hb]; [by apply Hp| | |done].
  - contradict Hb. unfold in_bounds in *. by rewrite <- Hw, <- Hh.
  - contradict Ha. unfold in_bounds in *. by rewrite Hw, Hh.
Qed.

(** Flipping a flipped image again gives the image back. *)
Lemma raster_flip_involutive (r : raster) (xb yb : bool) :
  raster_equiv (raster_flip (raster_flip r xb yb) xb yb) r.
Proof.
  do 2 (split; [simpl; done|]).
  intros i j _. destruct xb, yb; simpl; f_equal; lia.
Qed.

Lemma raster_get_image_size x y w h sheet :
  rw (raster_get_image x y w h sheet) = w /\
  rh (raster_get_image x y w h sheet) = h.
Proof. done. Qed.

(** A horizontal flip reads the pixel at the mirrored column. *)
Lemma raster_flip_pixel r i j :
  rpx (raster_flip r true false) i j = rpx r (rw r - 1 - i)%Z j.
Proof. done. Qed.

(** ** What a provider promises: its laws

    The client side of the interface.  A provider comes with an equivalence
    of images, coarser than equality, that its operations respect, and
    under which a flip undone by the same flip gives the image back.  The
    theorems of [Equiv] are proved against these laws only. *)
Class ImageLaws (img : Type) `{ImageProvider img} := {
  img_equiv : relation img;
  img_equiv_equivalence :: Equivalence img_equiv;
  get_image_proper x y w h :: Proper (img_equiv ==> img_equiv) (get_image x y w h);
  flip_proper :: Proper (img_equiv ==> eq ==> eq ==> img_equiv) flip;
  get_width_proper :: Proper (img_equiv ==> eq) get_width;
  get_height_proper :: Proper (img_equiv ==> eq) get_height;
  flip_flip (a : img) (xb yb : bool) : img_equiv (flip (flip a xb yb) xb yb) a
}.

#[export] Instance raster_laws : ImageLaws raster := {|
  img_equiv := raster_equiv;
  img_equiv_equivalence := raster_equiv_equivalence;
  get_image_proper := raster_get_image_proper;
  flip_proper := raster_flip_proper;
  get_width_proper a b E := proj1 E;
  get_height_proper a b E := proj1 (proj2 E);
  flip_flip := raster_flip_involutive
|}.
