(* ===== verification/Frames.v ===== *)
(** * The frame-set builders of [Player] ([player.py], lines 115-177)

    [Player.__init__] builds three dictionaries of frames, keyed by the two
    directions [c.RIGHT] and [c.LEFT], once, from the sheets of [setup.GFX]:

    - [make_walking_image_list] enumerates the cells of a 6 x 2 grid of 72 x
      97 pixel cells in row-major order, cuts each with [get_image], drops
      the last one with [pop(-1)] and, when asked, mirrors the rest;
    - [make_walking_image_dict] maps [c.RIGHT] to the list and [c.LEFT] to the
      mirrored one;
    - [make_standing_image_dict] maps [c.RIGHT] to the pre-cut sheet and
      [c.LEFT] to its mirror;
    - [make_jumping_image_dict] cuts two adjacent 66 x 97 cells: cell 0 for
      [c.RIGHT] and cell 1 for [c.LEFT].  The left pose is a frame of its own,
      not a mirror.

    The builders are written against the [ImageProvider] interface, in a
    Section whose context holds the constants [c] and the sheet dictionary
    [GFX].  A missing sheet raises [KeyError].  The theorems give each
    builder's result in closed form.  For the raster provider, they show
    that the left walking frames are pixel-for-pixel mirrors of the right
    ones. *)

From S2P Require Import Prelude Constants Image.
Open Scope Z_scope.

Section Frames.
Context {img : Type} `{ImageProvider img}.
Context (c : Consts) (GFX : gmap string img).

(** [player.py] lines 129-156. *)
Definition make_walking_image_list (sprite_sheet : img)
    (reverse_images : bool) : Result (list img) :=
  let coord :=
    foldl (fun coord y =>
      foldl (fun coord x => coord ++ [(x, y)]) coord (py_range 6))
      [] (py_range 2) in
  let walking_images :=
    foldl (fun walking_images pos =>
      let width := 72 in
      let height := 97 in
      let x := pos.1 * width in
      let y := pos.2 * height in
      walking_images ++ [get_image x y width height sprite_sheet])
      [] coord in
  popped <- py_pop_last walking_images ;;
  let walking_images := popped.1 in
  if reverse_images then
    pret (foldl (fun flipped_images image =>
            flipped_images ++ [flip image true false]) [] walking_images)
  else pret walking_images.

(** [player.py] lines 115-127. *)
Definition make_walking_image_dict : Result (gmap string (list img)) :=
  sprite_sheet <- dict_getitem GFX "p1_walking" ;;
  right_images <- make_walking_image_list sprite_sheet false ;;
  left_images <- make_walking_image_list sprite_sheet true ;;
  pret (py_dict [(c.(RIGHT), right_images); (c.(LEFT), left_images)]).

(** [player.py] lines 158-166. *)
Definition make_standing_image_dict : Result (gmap string img) :=
  right_image <- dict_getitem GFX "p1_stand" ;;
  let left_image := flip right_image true false in
  pret (py_dict [(c.(RIGHT), right_image); (c.(LEFT), left_image)]).

(** [player.py] lines 168-177. *)
Definition make_jumping_image_dict : Result (gmap string img) :=
  sheet <- dict_getitem GFX "p1_jumping" ;;
  let right_image := get_image 0 0 66 97 sheet in
  let left_image := get_image 66 0 66 97 sheet in
  pret (py_dict [(c.(RIGHT), right_image); (c.(LEFT), left_image)]).

(** ** Reference descriptions of the frame sets *)

(** Cell [k] of a 6-column grid of 72 x 97 cells, in row-major order. *)
Definition walking_cell (sheet : img) (k : Z) : img :=
  get_image (72 * (k mod 6)) (97 * (k / 6)) 72 97 sheet.

(** The walk cycle the spec describes: the first 11 of the 12 cells. *)
Definition walking_frames (sheet : img) : list img :=
  map (walking_cell sheet) (py_range 11).

Definition mirror (image : img) : img := flip image true false.

(** ** The builders in closed form *)

Lemma length_walking_frames sheet : length (walking_frames sheet) = 11%nat.
Proof. done. Qed.

(** The closed forms, as rewrite rules for the lemmas below. *)
Lemma walking_list_right_eq sheet :
  make_walking_image_list sheet false = inr (walking_frames sheet).
Proof. reflexivity. Qed.

Lemma walking_list_left_eq sheet :
  make_walking_image_list sheet true = inr (map mirror (walking_frames sheet)).
Proof. reflexivity. Qed.

(** (C5) The right walk cycle has 11 frames.  Frame [k] is cell [k] of
    the 6 x 2 grid in row-major order: column [k mod 6], row [k / 6].  The
    twelfth cell is dropped. *)
Theorem make_walking_image_list_right sheet :
  make_walking_image_list sheet false = inr (walking_frames sheet) /\
  length (walking_frames sheet) = 11%nat /\
  walking_frames sheet = map (fun k => get_image (72 * (k mod 6)) (97 * (k / 6)) 72 97 sheet)
                           [0; 1; 2; 3; 4; 5; 6; 7; 8; 9; 10].
Proof. split_and!; [exact (walking_list_right_eq sheet)|exact (length_walking_frames sheet)|reflexivity]. Qed.

(** (C15) The left walk cycle is the right one with every frame mirrored
    horizontally, in the same order: building with [flip = True] is
    building without it and mirroring each frame afterwards. *)
Theorem make_walking_image_list_left sheet :
  make_walking_image_list sheet true =
  (l <- make_walking_image_list sheet false ;; pret (map mirror l)).
Proof. by rewrite walking_list_left_eq, walking_list_right_eq. Qed.

Lemma py_dict_two_l {V} (k1 k2 : string) (v1 v2 : V) :
  k1 <> k2 -> py_dict [(k1, v1); (k2, v2)] !! k1 = Some v1.
Proof. intros Hne. unfold py_dict; simpl. by simplify_map_eq. Qed.

Lemma py_dict_two_r {V} (k1 k2 : string) (v1 v2 : V) :
  py_dict [(k1, v1); (k2, v2)] !! k2 = Some v2.
Proof. unfold py_dict; simpl. by simplify_map_eq. Qed.

Lemma py_dict_two_keys {V} (k1 k2 k : string) (v1 v2 : V) :
  is_Some (py_dict [(k1, v1); (k2, v2)] !! k) <-> k = k1 \/ k = k2.
Proof.
  unfold py_dict; simpl. rewrite !lookup_insert_is_Some', lookup_empty.
  pose proof (is_Some_None (A:=V)). intuition congruence.
Qed.

(** The dictionaries the three builders return, keyed by the two
    directions. *)
Definition dir_dict {V} (right left : V) : gmap string V :=
  py_dict [(c.(RIGHT), right); (c.(LEFT), left)].

Definition dir_dict_is {V} (d : gmap string V) (right left : V) : Prop :=
  d !! c.(RIGHT) = Some right /\ d !! c.(LEFT) = Some left.

Lemma dir_dict_spec {V} (right left : V) :
  c.(RIGHT) <> c.(LEFT) ->
  dir_dict_is (dir_dict right left) right left /\
  forall k, is_Some (dir_dict right left !! k) <-> k = c.(RIGHT) \/ k = c.(LEFT).
Proof.
  intros Hne. split; [split; [by apply py_dict_two_l|apply py_dict_two_r]|].
  intros k. apply py_dict_two_keys.
Qed.

(** The three builders in closed form. *)
Lemma walking_dict_closed :
  make_walking_image_dict =
  (sheet <- dict_getitem GFX "p1_walking" ;;
   pret (dir_dict (walking_frames sheet) (map mirror (walking_frames sheet)))).
Proof.
  unfold make_walking_image_dict. destruct (dict_getitem GFX _); [done|].
  py_unfold. by rewrite walking_list_right_eq, walking_list_left_eq.
Qed.

(** What a builder returns, by whether its sheet is loaded. *)
Definition built {V} (name : string) (r : Result (gmap string V))
    (right left : img -> V) : Prop :=
  match GFX !! name with
  | Some sheet => exists d, r = inr d /\ dir_dict_is d (right sheet) (left sheet)
  | None => r = inl (KeyError name)
  end.

Lemma built_dir_dict {V} (name : string) (right left : img -> V) :
  c.(RIGHT) <> c.(LEFT) ->
  built name (sheet <- dict_getitem GFX name ;;
              pret (dir_dict (right sheet) (left sheet))) right left.
Proof.
  intros Hne. unfold built, dict_getitem.
  destruct (GFX !! name); [|done]. eexists; split; [done|]. by apply dir_dict_spec.
Qed.

Lemma walking_dict_built :
  c.(RIGHT) <> c.(LEFT) ->
  built "p1_walking" make_walking_image_dict
    walking_frames (fun s => map mirror (walking_frames s)).
Proof. intros Hne. rewrite walking_dict_closed. by apply built_dir_dict. Qed.

Lemma standing_dict_built :
  c.(RIGHT) <> c.(LEFT) -> built "p1_stand" make_standing_image_dict id mirror.
Proof. apply (built_dir_dict "p1_stand" id mirror). Qed.

Lemma jumping_dict_built :
  c.(RIGHT) <> c.(LEFT) ->
  built "p1_jumping" make_jumping_image_dict
    (get_image 0 0 66 97) (get_image 66 0 66 97).
Proof. apply built_dir_dict. Qed.

(** (C17) With the walking sheet loaded and two distinct direction names,
    the walking dictionary has exactly the two direction keys.  It maps
    [c.RIGHT] to the 11-frame cycle and [c.LEFT] to its mirror.  Without
    the sheet it raises [KeyError]. *)
Theorem make_walking_image_dict_spec :
  c.(RIGHT) <> c.(LEFT) ->
  match GFX !! "p1_walking" with
  | Some sheet => exists d, make_walking_image_dict = inr d /\
      dir_dict_is d (walking_frames sheet) (map mirror (walking_frames sheet)) /\
      forall k, is_Some (d !! k) <-> k = c.(RIGHT) \/ k = c.(LEFT)
  | None => make_walking_image_dict = inl (KeyError "p1_walking")
  end.
Proof.
  intros Hne. rewrite walking_dict_closed. unfold dict_getitem.
  destruct (GFX !! "p1_walking"); [|done]. eexists; split; [done|]. by apply dir_dict_spec.
Qed.

(** (C18) The jumping dictionary has exactly the two direction keys, and
    its poses are two cells of one sheet: the left pose is cell 1, not the
    mirror of cell 0.  Without the sheet it raises [KeyError]. *)
Theorem make_jumping_image_dict_spec :
  c.(RIGHT) <> c.(LEFT) ->
  match GFX !! "p1_jumping" with
  | Some sheet => exists d, make_jumping_image_dict = inr d /\
      dir_dict_is d (get_image 0 0 66 97 sheet) (get_image 66 0 66 97 sheet) /\
      forall k, is_Some (d !! k) <-> k = c.(RIGHT) \/ k = c.(LEFT)
  | None => make_jumping_image_dict = inl (KeyError "p1_jumping")
  end.
Proof.
  intros Hne. unfold make_jumping_image_dict, dict_getitem.
  destruct (GFX !! "p1_jumping"); [|done]. eexists; split; [done|]. by apply dir_dict_spec.
Qed.
End Frames.

(** ** Pixels of the walk cycle, for the raster provider *)

Lemma lookup_walking_frames {img} `{ImageProvider img} (sheet : img) (k : nat) :
  (k < 11)%nat -> walking_frames sheet !! k = Some (walking_cell sheet (Z.of_nat k)).
Proof.
  intros Hk. unfold walking_frames, py_range.
  rewrite !list_lookup_fmap, lookup_seq_lt by lia. done.
Qed.

(** (C16) Mirror symmetry of the frame sets (the spec's P4), pixel by
    pixel, on the dictionaries [__init__] builds.  With the two sheets loaded
    and distinct direction names: pixel [(i, j)] of the right walk frame [k]
    is the sheet's pixel at offset [(i, j)] in cell [k], when the sheet has
    that pixel; pixel [(i, j)] of the left walk frame [k] is pixel
    [(71 - i, j)] of the right one; and the left standing pose has the size
    of the standing sheet, whose pixel [(w - 1 - i, j)] it shows at
    [(i, j)]. *)
Theorem walking_frames_pixels (c : Consts) (GFX : gmap string raster)
    (sheet st : raster) (k : nat) (i j : Z) :
  c.(RIGHT) <> c.(LEFT) -> GFX !! "p1_walking" = Some sheet ->
  GFX !! "p1_stand" = Some st -> (k < 11)%nat ->
  exists wd sd rs ls r l sl,
    make_walking_image_dict c GFX = inr wd /\ make_standing_image_dict c GFX = inr sd /\
    wd !! c.(RIGHT) = Some rs /\ wd !! c.(LEFT) = Some ls /\
    rs !! k = Some r /\ ls !! k = Some l /\
    sd !! c.(RIGHT) = Some st /\ sd !! c.(LEFT) = Some sl /\
    rw r = 72 /\ rh r = 97 /\ rw l = 72 /\ rh l = 97 /\
    (in_bounds sheet (72 * (Z.of_nat k mod 6) + i) (97 * (Z.of_nat k / 6) + j) ->
       rpx r i j = rpx sheet (72 * (Z.of_nat k mod 6) + i) (97 * (Z.of_nat k / 6) + j)) /\
    rpx l i j = rpx r (71 - i) j /\
    rw sl = rw st /\ rh sl = rh st /\ rpx sl i j = rpx st (rw st - 1 - i) j.
Proof.
  intros Hne Hw Hs Hk.
  pose proof (walking_dict_built c GFX Hne) as Bw.
  pose proof (standing_dict_built c GFX Hne) as Bs.
  unfold built in Bw, Bs. rewrite Hw in Bw. rewrite Hs in Bs.
  destruct Bw as (wd & Ewd & Rw & Lw), Bs as (sd & Esd & Rs & Ls).
  do 7 eexists. split_and!; [exact Ewd|exact Esd|exact Rw|exact Lw| | |exact Rs|exact Ls| ..];
    rewrite ?list_lookup_fmap, ?lookup_walking_frames by done; try reflexivity.
  intros Hin. simpl. by rewrite decide_True.
Qed.


