(* ===== verification/Player.v ===== *)
(** * The controller: class [Player] of [src/data/sprites/player.py]

    The attributes of a [Player] object are the fields of the record
    [Player].  Each method is a computation of [PyM Player]: it reads and
    writes [self] and may raise.  [self.x = v] is a [modify] with the field's
    setter.  [d[k]] and [l[i]] go through [dict_getitem] and [py_getitem], so
    a missing key or an index out of range raises as in Python.

    [self.state_dict] maps state names to bound methods.  Here it maps them
    to the names of the methods ([method]), and [call_method] runs the method
    a name stands for.  [update] looks the current state up in that
    dictionary and calls the method it finds.  A state that is not a key
    raises [KeyError].

    [Player_init] is [__init__].  The superclass constructor
    [pygame.sprite.Sprite.__init__] and the attribute [self.get_image] (the
    provider's [get_image], stored on the object) hold no state the
    controller reads.  The keyboard is [pygame.key.get_pressed()], a map from
    key codes to booleans.  Times and [dt] are rationals.

    Everything lives in a Section over the image provider, the constants [c]
    and the sheet dictionary [GFX]. *)

From S2P Require Import Prelude Constants Image Frames.
Open Scope Z_scope.

(** The bound methods [self.state_dict] can hold. *)
Inductive method := M_standing | M_walking | M_jumping.

#[export] Instance method_eq_dec : EqDecision method.
Proof. solve_decision. Defined.

Section Player.
Context {img : Type} `{ImageProvider img}.
Context (c : Consts).

(** ** The attributes of a [Player] *)

Record Player := mkPlayer {
  state_dict : gmap string method;
  state : string;
  walking_image_dict : gmap string (list img);
  standing_image_dict : gmap string img;
  jumping_image_dict : gmap string img;
  index : Z;
  timer : Q;
  direction : string;
  x_vel : Q;
  y_vel : Q;
  image : img;
  rect : Rect;
  image_list : option (list img)
}.

(** The attributes the methods assign. *)
Definition set_state (v : string) (p : Player) : Player :=
  mkPlayer p.(state_dict) v p.(walking_image_dict) p.(standing_image_dict)
    p.(jumping_image_dict) p.(index) p.(timer) p.(direction) p.(x_vel)
    p.(y_vel) p.(image) p.(rect) p.(image_list).
Definition set_index (v : Z) (p : Player) : Player :=
  mkPlayer p.(state_dict) p.(state) p.(walking_image_dict)
    p.(standing_image_dict) p.(jumping_image_dict) v p.(timer)
    p.(direction) p.(x_vel) p.(y_vel) p.(image) p.(rect) p.(image_list).
Definition set_timer (v : Q) (p : Player) : Player :=
  mkPlayer p.(state_dict) p.(state) p.(walking_image_dict)
    p.(standing_image_dict) p.(jumping_image_dict) p.(index) v
    p.(direction) p.(x_vel) p.(y_vel) p.(image) p.(rect) p.(image_list).
Definition set_direction (v : string) (p : Player) : Player :=
  mkPlayer p.(state_dict) p.(state) p.(walking_image_dict)
    p.(standing_image_dict) p.(jumping_image_dict) p.(index) p.(timer) v
    p.(x_vel) p.(y_vel) p.(image) p.(rect) p.(image_list).
Definition set_y_vel (v : Q) (p : Player) : Player :=
  mkPlayer p.(state_dict) p.(state) p.(walking_image_dict)
    p.(standing_image_dict) p.(jumping_image_dict) p.(index) p.(timer)
    p.(direction) p.(x_vel) v p.(image) p.(rect) p.(image_list).
Definition set_image (v : img) (p : Player) : Player :=
  mkPlayer p.(state_dict) p.(state) p.(walking_image_dict)
    p.(standing_image_dict) p.(jumping_image_dict) p.(index) p.(timer)
    p.(direction) p.(x_vel) p.(y_vel) v p.(rect) p.(image_list).
Definition set_image_list (v : list img) (p : Player) : Player :=
  mkPlayer p.(state_dict) p.(state) p.(walking_image_dict)
    p.(standing_image_dict) p.(jumping_image_dict) p.(index) p.(timer)
    p.(direction) p.(x_vel) p.(y_vel) p.(image) p.(rect) (Some v).

(** [self.image_list]: the attribute exists once [walking] has set it. *)
Definition get_image_list : PyM Player (list img) :=
  fun p => match p.(image_list) with
           | Some l => inr (l, p)
           | None => inl (AttributeError "image_list")
           end.

(** [pygame.key.get_pressed()]: pressed or not, by key code. *)
Definition Keys := Z -> bool.

(** ** The methods *)

(** [make_state_dict], lines 30-37. *)
Definition make_state_dict : gmap string method :=
  py_dict [(c.(STANDING), M_standing); (c.(WALKING), M_walking);
           (c.(JUMPING), M_jumping)].

(** [enter_jump_state], lines 97-102. *)
Definition enter_jump_state : PyM Player unit :=
  modify (set_state c.(JUMPING)) ;;
  modify (set_y_vel (inject_Z c.(START_JUMP_VEL))).

(** [standing], lines 39-56. *)
Definition standing (keys : Keys) (current_time dt : Q) : PyM Player unit :=
  d <- gets standing_image_dict ;;
  dir <- gets direction ;;
  im <- lift (dict_getitem d dir) ;;
  modify (set_image im) ;;
  (if keys Pygame.K_RIGHT then
     modify (set_index 0) ;;
     modify (set_direction c.(RIGHT)) ;;
     modify (set_state c.(WALKING)) ;;
     modify (set_timer current_time)
   else if keys Pygame.K_LEFT then
     modify (set_index 0) ;;
     modify (set_direction c.(LEFT)) ;;
     modify (set_state c.(WALKING)) ;;
     modify (set_timer current_time)
   else skip) ;;
  if keys Pygame.K_SPACE then enter_jump_state else skip.

(** [get_animation_speed], lines 84-95. *)
Definition get_animation_speed (dt : Q) : PyM Player Q :=
  xv <- gets x_vel ;;
  let frequency :=
    if py_eq xv 0 then inject_Z c.(SLOWEST_FREQUENCY)
    else if py_gt xv 0 then (inject_Z c.(SLOWEST_FREQUENCY) - (xv * 11 * dt))%Q
    else (inject_Z c.(SLOWEST_FREQUENCY) - (xv * dt * 11 * -1))%Q in
  pret frequency.

(** [animate], lines 73-82. *)
Definition animate (current_time dt : Q) : PyM Player unit :=
  t <- gets timer ;;
  speed <- get_animation_speed dt ;;
  if py_gt (current_time - t)%Q speed then
    modify (set_timer current_time) ;;
    il <- get_image_list ;;
    i <- gets index ;;
    if i <? Z.of_nat (length il) - 1 then modify (set_index (i + 1))
    else modify (set_index 0)
  else skip.

(** [walking], lines 58-71. *)
Definition walking (keys : Keys) (current_time dt : Q) : PyM Player unit :=
  d <- gets walking_image_dict ;;
  dir <- gets direction ;;
  il <- lift (dict_getitem d dir) ;;
  modify (set_image_list il) ;;
  il <- get_image_list ;;
  i <- gets index ;;
  im <- lift (py_getitem il i) ;;
  modify (set_image im) ;;
  animate current_time dt ;;
  (if keys Pygame.K_RIGHT then modify (set_direction c.(RIGHT))
   else if keys Pygame.K_LEFT then modify (set_direction c.(LEFT))
   else skip) ;;
  if keys Pygame.K_SPACE then enter_jump_state else skip.

(** [jumping], lines 104-112. *)
Definition jumping (keys : Keys) (current_time dt : Q) : PyM Player unit :=
  d <- gets jumping_image_dict ;;
  dir <- gets direction ;;
  im <- lift (dict_getitem d dir) ;;
  modify (set_image im) ;;
  if keys Pygame.K_RIGHT then modify (set_direction c.(RIGHT))
  else if keys Pygame.K_LEFT then modify (set_direction c.(LEFT))
  else skip.

(** Calling a bound method of [self.state_dict]. *)
Definition call_method (m : method) : Keys -> Q -> Q -> PyM Player unit :=
  match m with
  | M_standing => standing
  | M_walking => walking
  | M_jumping => jumping
  end.

(** [update], lines 179-181. *)
Definition update (keys : Keys) (current_time dt : Q) : PyM Player unit :=
  sd <- gets state_dict ;;
  s <- gets state ;;
  state_function <- lift (dict_getitem sd s) ;;
  call_method state_function keys current_time dt.

(** [__init__], lines 14-28, with the sheets [GFX] of [setup.GFX]. *)
Definition Player_init (GFX : gmap string img) : Result Player :=
  let state_dict := make_state_dict in
  let state := c.(STANDING) in
  walking_image_dict <- make_walking_image_dict c GFX ;;
  standing_image_dict <- make_standing_image_dict c GFX ;;
  jumping_image_dict <- make_jumping_image_dict c GFX ;;
  let direction := c.(RIGHT) in
  image <- dict_getitem standing_image_dict direction ;;
  pret {| state_dict := state_dict; state := state;
          walking_image_dict := walking_image_dict;
          standing_image_dict := standing_image_dict;
          jumping_image_dict := jumping_image_dict;
          index := 0; timer := 0%Q; direction := direction;
          x_vel := 0%Q; y_vel := 0%Q; image := image;
          rect := get_rect_y image 535; image_list := None |}.
(** ** The invariant of a [Player] *)

Definition is_state (s : string) : Prop :=
  s = c.(STANDING) \/ s = c.(WALKING) \/ s = c.(JUMPING).

Definition is_dir (d : string) : Prop := d = c.(RIGHT) \/ d = c.(LEFT).

(** Every frame dictionary has an entry for both directions, and both walk
    cycles have the same length [n]. *)
Definition frames_ok (p : Player) (n : nat) : Prop :=
  forall d, is_dir d ->
    (exists l, p.(walking_image_dict) !! d = Some l /\ length l = n) /\
    is_Some (p.(standing_image_dict) !! d) /\
    is_Some (p.(jumping_image_dict) !! d).

(** A well-formed player: the dispatch table is the one [__init__] built,
    the state is one of its keys, and the direction is one of the frame
    dictionaries' keys.  The cursor indexes the walk cycle. *)
Definition wf_player (p : Player) : Prop :=
  p.(state_dict) = make_state_dict /\ is_state p.(state) /\
  is_dir p.(direction) /\
  exists n, (0 < n)%nat /\ frames_ok p n /\ 0 <= p.(index) < Z.of_nat n.
End Player.

Arguments Player img : clear implicits.

(** [Player()]: the module [c] is loaded first, since [make_state_dict]
    reads [c.STANDING], [c.WALKING] and [c.JUMPING] before anything else. *)
Definition player_new {img} `{ImageProvider img} (ns : gmap string pyval)
    (GFX : gmap string img) : Result (Player img) :=
  c <- load_consts ns ;;
  Player_init c GFX.

(** ** The controller never raises, and keeps its invariant *)

Section Safety.
Context {img : Type} `{ImageProvider img}.
Context (c : Consts).
Hypothesis Hc : consts_wf c.

(** With distinct state names, the dispatch table has the method of the
    same name for each state. *)
Lemma make_state_dict_lookup :
  make_state_dict c !! c.(STANDING) = Some M_standing /\
  make_state_dict c !! c.(WALKING) = Some M_walking /\
  make_state_dict c !! c.(JUMPING) = Some M_jumping.
Proof.
  destruct Hc as (H1 & H2 & H3 & _).
  unfold make_state_dict, py_dict; simpl. by simplify_map_eq.
Qed.

(** The keys of the dispatch table are the three state names. *)
Lemma make_state_dict_dom (s : string) :
  is_Some (make_state_dict c !! s) <-> is_state c s.
Proof.
  unfold make_state_dict, py_dict, is_state; simpl.
  repeat setoid_rewrite lookup_insert_is_Some'. rewrite lookup_empty.
  pose proof (is_Some_None (A:=method)). intuition congruence.
Qed.

(** (C14) State coverage.  The dispatch table [make_state_dict] has a
    method for a string exactly when that string is one of the three state
    names, so [update] raises [KeyError] for any other [self.state].  With
    distinct state names, each state is mapped to the method of the same
    name. *)
Theorem state_coverage (s : string) :
  (is_Some (make_state_dict c !! s) <-> is_state c s) /\
  make_state_dict c !! c.(STANDING) = Some M_standing /\
  make_state_dict c !! c.(WALKING) = Some M_walking /\
  make_state_dict c !! c.(JUMPING) = Some M_jumping.
Proof. split; [apply make_state_dict_dom|exact make_state_dict_lookup]. Qed.

Lemma enter_jump_state_run (p : Player img) :
  enter_jump_state c p =
  inr (tt, set_y_vel (inject_Z c.(START_JUMP_VEL)) (set_state c.(JUMPING) p)).
Proof. reflexivity. Qed.

Ltac wf_destruct Hwf :=
  let Hsd := fresh "Hsd" in let Hst := fresh "Hst" in
  let Hdir := fresh "Hdir" in let n := fresh "n" in
  let Hn := fresh "Hn" in let Hfr := fresh "Hfr" in let Hidx := fresh "Hidx" in
  destruct Hwf as (Hsd & Hst & Hdir & n & Hn & Hfr & Hidx).

Lemma standing_wf keys t dt (p : Player img) :
  wf_player c p ->
  exists p', standing c keys t dt p = inr (tt, p') /\ wf_player c p'.
Proof.
  intros Hwf. pose proof Hwf as Hwf'. wf_destruct Hwf.
  destruct (Hfr _ Hdir) as (_ & [im Him] & _).
  unfold standing. py_unfold. rewrite (dict_getitem_Some _ _ _ Him).
  destruct (keys Pygame.K_RIGHT), (keys Pygame.K_LEFT), (keys Pygame.K_SPACE);
    simpl; eexists; (split; [reflexivity|]);
    repeat split; simpl; try done; unfold is_state, is_dir; eauto;
    exists n; (split; [done|split; [exact Hfr|simpl; lia]]).
Qed.

(** The threshold [get_animation_speed] returns, as the spec writes it:
    [SLOWEST_FREQUENCY - x_vel * 11 * dt * sign(x_vel)]. *)
Definition spec_animation_speed (xv dt : Q) : Q :=
  (inject_Z c.(SLOWEST_FREQUENCY) - Qabs xv * 11 * dt)%Q.

(** [get_animation_speed] returns [SLOWEST_FREQUENCY - |x_vel| * 11 * dt]
    and leaves the player unchanged. *)
Lemma get_animation_speed_run dt (p : Player img) :
  exists f, get_animation_speed c dt p = inr (f, p) /\
    (f == spec_animation_speed p.(x_vel) dt)%Q.
Proof.
  unfold get_animation_speed, spec_animation_speed, py_eq. py_unfold.
  eexists; split; [reflexivity|].
  destruct (Qeq_bool (x_vel p) 0) eqn:E0.
  - apply Qeq_bool_eq in E0. rewrite E0, Qabs_pos by lra. ring.
  - apply Qeq_bool_neq in E0.
    destruct (py_gt (x_vel p) 0) eqn:Egt.
    + apply py_gt_spec in Egt. rewrite Qabs_pos by lra. ring.
    + apply py_gt_false in Egt. rewrite Qabs_neg by lra. ring.
Qed.

(** Python's [sign], which the spec's formula uses. *)
Definition Qsgn (x : Q) : Q :=
  if Qeq_bool x 0 then 0 else if Qle_bool 0 x then 1 else (-1)%Q.

Lemma Qabs_Qsgn (x : Q) : (Qabs x == x * Qsgn x)%Q.
Proof.
  unfold Qsgn. destruct (Qeq_bool x 0) eqn:E0.
  - apply Qeq_bool_eq in E0. rewrite E0. reflexivity.
  - apply Qeq_bool_neq in E0. destruct (Qle_bool 0 x) eqn:E1.
    + apply Qle_bool_iff in E1. rewrite Qabs_pos by lra. ring.
    + assert (~ 0 <= x)%Q by (intros F; apply Qle_bool_iff in F; congruence).
      rewrite Qabs_neg by lra. ring.
Qed.

(** (C19) [get_animation_speed] reads [self.x_vel] and returns, without
    changing the player, the spec's threshold [SLOWEST_FREQUENCY - x_vel *
    11 * dt * sign(x_vel)].  Each of its three branches (zero, positive and
    negative [x_vel]) computes that value. *)
Theorem get_animation_speed_sign dt (p : Player img) :
  exists f, get_animation_speed c dt p = inr (f, p) /\
    (f == inject_Z c.(SLOWEST_FREQUENCY) - p.(x_vel) * 11 * dt * Qsgn p.(x_vel))%Q.
Proof.
  destruct (get_animation_speed_run dt p) as (f & Hf & Hfeq).
  exists f. split; [done|]. rewrite Hfeq. unfold spec_animation_speed.
  rewrite Qabs_Qsgn. ring.
Qed.

(** [animate] touches only the cursor and the timer, and keeps the cursor
    inside the walk cycle. *)
Lemma animate_shape t dt (p : Player img) il :
  p.(image_list) = Some il -> 0 <= p.(index) < Z.of_nat (length il) ->
  exists i' t', animate c t dt p = inr (tt, set_index i' (set_timer t' p)) /\
    0 <= i' < Z.of_nat (length il).
Proof.
  intros Hil Hidx.
  destruct (get_animation_speed_run dt p) as (f & Hf & _).
  unfold animate. py_unfold. rewrite Hf.
  destruct (py_gt _ f).
  - unfold get_image_list. simpl. rewrite Hil. simpl.
    destruct (Z.ltb_spec (index p) (Z.of_nat (length il) - 1));
      eexists _, t; (split; [reflexivity|lia]).
  - exists (index p), (timer p). split; [by destruct p|lia].
Qed.

Lemma animate_run t dt (p : Player img) il :
  p.(image_list) = Some il ->
  animate c t dt p = inr (tt,
    if py_gt (t - p.(timer))%Q (spec_animation_speed p.(x_vel) dt) then
      set_index (if p.(index) <? Z.of_nat (length il) - 1 then p.(index) + 1
                 else 0) (set_timer t p)
    else p).
Proof.
  intros Hil. destruct (get_animation_speed_run dt p) as (f & Hf & Hfeq).
  unfold animate. py_unfold. rewrite Hf, <- Hfeq.
  destruct (py_gt _ f); [|by destruct p].
  unfold get_image_list. simpl. rewrite Hil. simpl. by destruct (_ <? _).
Qed.

(** The wrap-around of [animate]: stepping the cursor with the code's test
    against [len(image_list) - 1] is stepping it modulo the length. *)
Lemma cursor_wrap (i n : Z) :
  0 <= i < n -> (if i <? n - 1 then i + 1 else 0) = (i + 1) mod n.
Proof.
  intros Hi. destruct (Z.ltb_spec i (n - 1)).
  - rewrite Z.mod_small; lia.
  - replace (i + 1) with n by lia. by rewrite Z_mod_same_full.
Qed.

(** (C32) A fast player outruns the pacing gate.  When [|x_vel| * 11 * dt]
    exceeds [SLOWEST_FREQUENCY], the threshold is negative, and [animate]
    advances the cursor on every tick whose clock is not behind the timer,
    even a tick at the very instant of the last advance. *)
Theorem animate_fast_always_advances t dt (p : Player img) il :
  p.(image_list) = Some il ->
  (inject_Z c.(SLOWEST_FREQUENCY) < Qabs p.(x_vel) * 11 * dt)%Q ->
  (p.(timer) <= t)%Q ->
  animate c t dt p = inr (tt,
    set_index (if p.(index) <? Z.of_nat (length il) - 1 then p.(index) + 1
               else 0) (set_timer t p)).
Proof.
  intros Hil Hfast Ht. rewrite (animate_run _ _ _ il) by done.
  assert (Hg : py_gt (t - timer p) (spec_animation_speed (x_vel p) dt) = true)
    by (apply py_gt_spec; unfold spec_animation_speed; lra).
  by rewrite Hg.
Qed.

(** (C6) Pacing of the walk cycle.  [animate] advances the cursor exactly
    when more time than the threshold [SLOWEST_FREQUENCY - |x_vel| * 11 *
    dt] has passed since [timer], and then by one modulo the cycle length,
    restarting the timer.  Otherwise it changes nothing. *)
Theorem animate_spec t dt (p : Player img) il :
  p.(image_list) = Some il -> 0 <= p.(index) < Z.of_nat (length il) ->
  animate c t dt p = inr (tt,
    if py_gt (t - p.(timer))%Q (spec_animation_speed p.(x_vel) dt) then
      set_index ((p.(index) + 1) mod Z.of_nat (length il)) (set_timer t p)
    else p).
Proof. intros Hil Hi. by rewrite (animate_run _ _ _ il), cursor_wrap. Qed.

Lemma walking_wf keys t dt (p : Player img) :
  wf_player c p ->
  exists p', walking c keys t dt p = inr (tt, p') /\ wf_player c p'.
Proof.
  intros Hwf. wf_destruct Hwf.
  destruct (Hfr _ Hdir) as ((il & Hil & Hlen) & _ & _).
  destruct (py_getitem_in_range il (index p)) as (x & _ & Hx); [lia|].
  unfold walking. py_unfold. rewrite (dict_getitem_Some _ _ _ Hil).
  simpl. rewrite Hx. simpl.
  destruct (animate_shape t dt (set_image x (set_image_list il p)) il)
    as (i' & t' & Hanim & Hi'); [done|simpl; lia|].
  rewrite Hanim.
  destruct (keys Pygame.K_RIGHT), (keys Pygame.K_LEFT), (keys Pygame.K_SPACE);
    simpl; eexists; (split; [reflexivity|]);
    repeat split; simpl; try done; unfold is_state, is_dir; eauto;
    exists n; (split; [done|split; [exact Hfr|simpl; lia]]).
Qed.

Lemma jumping_wf keys t dt (p : Player img) :
  wf_player c p ->
  exists p', jumping c keys t dt p = inr (tt, p') /\ wf_player c p'.
Proof.
  intros Hwf. pose proof Hwf as Hwf'. wf_destruct Hwf.
  destruct (Hfr _ Hdir) as (_ & _ & [im Him]).
  unfold jumping. py_unfold. rewrite (dict_getitem_Some _ _ _ Him).
  destruct (keys Pygame.K_RIGHT), (keys Pygame.K_LEFT);
    simpl; eexists; (split; [reflexivity|]);
    repeat split; simpl; try done; unfold is_state, is_dir; eauto;
    exists n; (split; [done|split; [exact Hfr|simpl; lia]]).
Qed.

(** (C2) From a well-formed player, [update] never raises: the lookup in
    [state_dict] finds a method, and no dictionary or list access fails.
    The player it leaves is well-formed again. *)
Theorem update_wf keys t dt (p : Player img) :
  wf_player c p ->
  exists p', update c keys t dt p = inr (tt, p') /\ wf_player c p'.
Proof.
  intros Hwf. pose proof Hwf as (Hsd & Hst & _).
  destruct make_state_dict_lookup as (Hs & Hw & Hj).
  unfold update. py_unfold. rewrite Hsd.
  destruct Hst as [-> | [-> | ->]];
    [rewrite (dict_getitem_Some _ _ _ Hs); apply standing_wf
    |rewrite (dict_getitem_Some _ _ _ Hw); apply walking_wf
    |rewrite (dict_getitem_Some _ _ _ Hj); apply jumping_wf]; done.
Qed.
(** (C23) The keys a tick reads: Right, Left and Space, nothing else.  In
    particular the configured [JUMP_BUTTON] ([pg.K_a]) plays no part: two
    keyboards that differ only there give the same tick. *)
Theorem update_ignores_jump_button keys keys' t dt (p : Player img) :
  (forall k, k <> Pygame.K_a -> keys k = keys' k) ->
  update c keys t dt p = update c keys' t dt p.
Proof.
  intros Hk.
  assert (HR : keys Pygame.K_RIGHT = keys' Pygame.K_RIGHT) by (apply Hk; done).
  assert (HL : keys Pygame.K_LEFT = keys' Pygame.K_LEFT) by (apply Hk; done).
  assert (HS : keys Pygame.K_SPACE = keys' Pygame.K_SPACE) by (apply Hk; done).
  unfold update. py_unfold.
  destruct (dict_getitem (state_dict p) (state p)) as [|[]]; [done| | |];
    simpl; unfold standing, walking, jumping; by rewrite ?HR, ?HL, ?HS.
Qed.
(** (C24) A state outside the dispatch table.  When [self.state] is not
    one of the three state names, [update] raises [KeyError] with that name
    before it calls any method.  This is what happens to a player whose
    state is set to [FREE_FALL], which [constants.py] defines and no method
    handles. *)
Theorem update_unknown_state keys t dt (p : Player img) :
  p.(state_dict) = make_state_dict c -> ~ is_state c p.(state) ->
  update c keys t dt p = inl (KeyError p.(state)).
Proof.
  intros Hsd Hns. unfold update, dict_getitem. py_unfold. rewrite Hsd.
  destruct (make_state_dict c !! state p) eqn:E; [|done].
  exfalso. apply Hns, make_state_dict_dom. by rewrite E.
Qed.

(** (C25) [walking] reads [image_list[index]] before anything else changes.
    When the cursor is outside the walk cycle of the current direction,
    beyond either end, the tick raises [IndexError]. *)
Theorem walking_index_error keys t dt (p : Player img) il :
  p.(walking_image_dict) !! p.(direction) = Some il ->
  (p.(index) < - Z.of_nat (length il) \/ Z.of_nat (length il) <= p.(index)) ->
  walking c keys t dt p = inl (IndexError "list index out of range").
Proof.
  intros Hil Hout. unfold walking. py_unfold.
  rewrite (dict_getitem_Some _ _ _ Hil). simpl.
  by rewrite (py_getitem_out_of_range il (index p) Hout).
Qed.
(** The dispatch that section 9 of the spec proposes instead of the table:
    one exhaustive match on the state. *)
Definition update_by_match (keys : Keys) (current_time dt : Q) :
    PyM (Player img) unit := fun p =>
  if decide (p.(state) = c.(STANDING)) then standing c keys current_time dt p
  else if decide (p.(state) = c.(WALKING)) then walking c keys current_time dt p
  else if decide (p.(state) = c.(JUMPING)) then jumping c keys current_time dt p
  else inl (KeyError p.(state)).

(** (C35) The dispatch table is an exhaustive match.  For a player whose
    [state_dict] is the table [make_state_dict] builds, with distinct state
    names, [update] computes what one match on [self.state] computes, for
    every state string, the unknown ones included. *)
Theorem update_by_match_equiv keys t dt (p : Player img) :
  p.(state_dict) = make_state_dict c ->
  update c keys t dt p = update_by_match keys t dt p.
Proof.
  intros Hsd. destruct make_state_dict_lookup as (Hs & Hw & Hj).
  unfold update, update_by_match, dict_getitem. py_unfold. rewrite Hsd.
  destruct (decide (state p = c.(STANDING))) as [->|Ns]; [by rewrite Hs|].
  destruct (decide (state p = c.(WALKING))) as [->|Nw]; [by rewrite Hw|].
  destruct (decide (state p = c.(JUMPING))) as [->|Nj]; [by rewrite Hj|].
  destruct (make_state_dict c !! state p) eqn:E; [|done].
  exfalso. assert (Hi : is_state c (state p)) by (apply make_state_dict_dom; by rewrite E).
  destruct Hi as [|[|]]; contradiction.
Qed.

End Safety.

(** ** Construction *)

Section Init.
Context {img : Type} `{ImageProvider img}.

(** The player [__init__] builds from the three sheets. *)
Definition init_player (c : Consts) (walk stand jump : img) : Player img := {|
  state_dict := make_state_dict c; state := c.(STANDING);
  walking_image_dict := dir_dict c (walking_frames walk) (map mirror (walking_frames walk));
  standing_image_dict := dir_dict c stand (mirror stand);
  jumping_image_dict := dir_dict c (get_image 0 0 66 97 jump) (get_image 66 0 66 97 jump);
  index := 0; timer := 0%Q; direction := c.(RIGHT); x_vel := 0%Q; y_vel := 0%Q;
  image := stand; rect := get_rect_y stand 535; image_list := None |}.

Lemma Player_init_closed (c : Consts) (GFX : gmap string img) walk stand jump :
  c.(RIGHT) <> c.(LEFT) ->
  GFX !! "p1_walking" = Some walk -> GFX !! "p1_stand" = Some stand ->
  GFX !! "p1_jumping" = Some jump ->
  Player_init c GFX = inr (init_player c walk stand jump).
Proof.
  intros Hrl Hw Hs Hj. unfold Player_init. rewrite walking_dict_closed.
  unfold make_standing_image_dict, make_jumping_image_dict, dict_getitem.
  rewrite Hw, Hs, Hj. py_unfold. unfold dir_dict. by rewrite py_dict_two_l.
Qed.

Lemma init_player_frames (c : Consts) walk stand jump :
  c.(RIGHT) <> c.(LEFT) -> frames_ok c (init_player c walk stand jump) 11.
Proof.
  intros Hrl d Hd. simpl.
  pose proof (dir_dict_spec c (walking_frames walk) (map mirror (walking_frames walk)) Hrl)
    as [[Wr Wl] _].
  pose proof (proj2 (dir_dict_spec c stand (mirror stand) Hrl) d) as Sk.
  pose proof (proj2 (dir_dict_spec c (get_image 0 0 66 97 jump)
                                     (get_image 66 0 66 97 jump) Hrl) d) as Jk.
  split_and!; [|by apply Sk|by apply Jk].
  destruct Hd as [-> | ->]; eexists; (split; [done|]);
    by rewrite ?length_map, length_walking_frames.
Qed.

Lemma init_player_wf (c : Consts) walk stand jump :
  consts_wf c -> wf_player c (init_player c walk stand jump).
Proof.
  intros (_ & _ & _ & Hrl). split_and!; [done|by left|by left|].
  exists 11%nat. split_and!; [lia|by apply init_player_frames|simpl; lia..].
Qed.

(** (C4) [__init__] with distinct constants and the three sheets loaded
    returns this player: it stands, faces [c.RIGHT], shows the standing
    sheet, and sits in a rect of that size at [y = 535].  Its three frame
    dictionaries map [c.RIGHT] and [c.LEFT] to the 11 right walk frames and
    their mirrors, the standing sheet and its mirror, and the two jumping
    cells.  Its cursor, timer and velocities are [0], it has no
    [image_list] yet, and it is well-formed. *)
Theorem Player_init_spec (c : Consts) (GFX : gmap string img) walk stand jump :
  consts_wf c ->
  GFX !! "p1_walking" = Some walk -> GFX !! "p1_stand" = Some stand ->
  GFX !! "p1_jumping" = Some jump ->
  exists p, Player_init c GFX = inr p /\ wf_player c p /\ p = {|
    state_dict := make_state_dict c; state := c.(STANDING);
    walking_image_dict := dir_dict c (walking_frames walk) (map mirror (walking_frames walk));
    standing_image_dict := dir_dict c stand (mirror stand);
    jumping_image_dict := dir_dict c (get_image 0 0 66 97 jump) (get_image 66 0 66 97 jump);
    index := 0; timer := 0%Q; direction := c.(RIGHT); x_vel := 0%Q; y_vel := 0%Q;
    image := stand; rect := get_rect_y stand 535; image_list := None |}.
Proof.
  intros Hc Hw Hs Hj. pose proof Hc as (_ & _ & _ & Hrl).
  exists (init_player c walk stand jump).
  split_and!; [by apply Player_init_closed|by apply init_player_wf|done].
Qed.

(** (C20) The constructor raises [KeyError] for the first sheet it looks for that
    [setup.GFX] lacks: walking, then standing, then jumping. *)
Lemma Player_init_missing_sheet (c : Consts) (GFX : gmap string img) :
  (GFX !! "p1_walking" = None ->
     Player_init c GFX = inl (KeyError "p1_walking")) /\
  (is_Some (GFX !! "p1_walking") -> GFX !! "p1_stand" = None ->
     Player_init c GFX = inl (KeyError "p1_stand")) /\
  (is_Some (GFX !! "p1_walking") -> is_Some (GFX !! "p1_stand") ->
     GFX !! "p1_jumping" = None ->
     Player_init c GFX = inl (KeyError "p1_jumping")).
Proof.
  unfold Player_init, make_walking_image_dict, make_standing_image_dict,
    make_jumping_image_dict, dict_getitem.
  split; [|split]; [intros ->; done| intros [w ->] ->|intros [w ->] [s ->] ->];
    py_unfold; by rewrite walking_list_right_eq,
      walking_list_left_eq.
Qed.

(** (C1) [Player()] raises [AttributeError] whatever sheets are loaded:
    [make_state_dict] reads [c.JUMPING], which [constants.py] does not
    define.  The repository's player cannot be constructed. *)
Theorem player_new_constants_py (GFX : gmap string img) :
  player_new constants_ns GFX = inl (AttributeError "JUMPING").
Proof. reflexivity. Qed.
End Init.
