(* ===== verification/Machine.v ===== *)
(** * The controller as an abstract state machine, and its refinement

    Section 4.2 of the spec describes the controller as a table.  Three
    locomotion states each react to Right, Left and Jump, and section 4.3
    adds the pacing of the walk cycle.  [astep] is that table as a step
    relation on abstract states [AState].  An abstract state holds the
    locomotion state, a facing [Dir], the animation cursor and timer, the two
    velocities and the frame on display.  [reachable] is the set of states
    reachable from the state [__init__] sets up.

    The table is the spec's, made precise where the code decides: which
    frame a tick shows, and the cursor reset when a standing player starts
    to walk and jumps in the same tick.  The frame shown is the one for the
    direction and cursor at the start of the tick.  The cursor wraps modulo
    the length [N] of the walk cycle.

    [refines] relates a concrete [Player] to an abstract state.
    [update_refines] is a forward simulation: one call to [Player.update]
    is one [astep], with the input read off the keyboard ([update_step]
    also keeps the frame dictionaries).  The invariants
    proved on [reachable] by rule induction therefore hold of every player
    that the constructor and a sequence of updates produce. *)

From S2P Require Import Prelude Constants Image Frames Player.
Open Scope Z_scope.

Inductive Loc := Standing | Walking | Jumping.
Inductive Dir := FaceRight | FaceLeft.

(** The frame on display: which dictionary, which key, which cell. *)
Inductive Frame :=
  | FStanding (d : Dir)
  | FWalking (d : Dir) (k : Z)
  | FJumping (d : Dir).

#[export] Instance loc_eq_dec : EqDecision Loc.
Proof. solve_decision. Defined.
#[export] Instance dir_eq_dec : EqDecision Dir.
Proof. solve_decision. Defined.

(** One tick's input: the three keys, the clock and the frame time. *)
Record Input := {
  in_right : bool; in_left : bool; in_space : bool;
  in_time : Q; in_dt : Q
}.

Record AState := {
  a_loc : Loc; a_dir : Dir; a_cursor : Z; a_timer : Q;
  a_xv : Q; a_vy : Q; a_shown : Frame
}.

Section Abstract.
(** The length of the walk cycle and the two configured numbers. *)
Context (N : nat) (slowest jump_vel : Z).

(** Right takes precedence over Left. *)
Definition face (i : Input) (d : Dir) : Dir :=
  if in_right i then FaceRight else if in_left i then FaceLeft else d.

Definition threshold (xv dt : Q) : Q := (inject_Z slowest - Qabs xv * 11 * dt)%Q.

(** The walk cycle advances when more time than the threshold has passed
    since the cursor last moved. *)
Definition advances (i : Input) (a : AState) : bool :=
  py_gt (in_time i - a_timer a)%Q (threshold (a_xv a) (in_dt i)).

Definition jump_vy (i : Input) (a : AState) : Q :=
  if in_space i then inject_Z jump_vel else a_vy a.

Inductive astep (i : Input) : AState -> AState -> Prop :=
  | step_standing a :
      a_loc a = Standing ->
      astep i a {|
        a_loc := if in_space i then Jumping
                 else if in_right i || in_left i then Walking else Standing;
        a_dir := face i (a_dir a);
        a_cursor := if in_right i || in_left i then 0 else a_cursor a;
        a_timer := if in_right i || in_left i then in_time i else a_timer a;
        a_xv := a_xv a; a_vy := jump_vy i a;
        a_shown := FStanding (a_dir a) |}
  | step_walking a :
      a_loc a = Walking ->
      astep i a {|
        a_loc := if in_space i then Jumping else Walking;
        a_dir := face i (a_dir a);
        a_cursor := if advances i a then (a_cursor a + 1) mod Z.of_nat N
                    else a_cursor a;
        a_timer := if advances i a then in_time i else a_timer a;
        a_xv := a_xv a; a_vy := jump_vy i a;
        a_shown := FWalking (a_dir a) (a_cursor a) |}
  | step_jumping a :
      a_loc a = Jumping ->
      astep i a {|
        a_loc := Jumping; a_dir := face i (a_dir a);
        a_cursor := a_cursor a; a_timer := a_timer a;
        a_xv := a_xv a; a_vy := a_vy a;
        a_shown := FJumping (a_dir a) |}.

(** The table as a function: the state [astep] steps to. *)
Definition astep_fn (i : Input) (a : AState) : AState :=
  match a_loc a with
  | Standing => {|
      a_loc := if in_space i then Jumping
               else if in_right i || in_left i then Walking else Standing;
      a_dir := face i (a_dir a);
      a_cursor := if in_right i || in_left i then 0 else a_cursor a;
      a_timer := if in_right i || in_left i then in_time i else a_timer a;
      a_xv := a_xv a; a_vy := jump_vy i a;
      a_shown := FStanding (a_dir a) |}
  | Walking => {|
      a_loc := if in_space i then Jumping else Walking;
      a_dir := face i (a_dir a);
      a_cursor := if advances i a then (a_cursor a + 1) mod Z.of_nat N
                  else a_cursor a;
      a_timer := if advances i a then in_time i else a_timer a;
      a_xv := a_xv a; a_vy := jump_vy i a;
      a_shown := FWalking (a_dir a) (a_cursor a) |}
  | Jumping => {|
      a_loc := Jumping; a_dir := face i (a_dir a);
      a_cursor := a_cursor a; a_timer := a_timer a;
      a_xv := a_xv a; a_vy := a_vy a;
      a_shown := FJumping (a_dir a) |}
  end.

(** The frames a run of the table shows, one per input. *)
Fixpoint shown_trace (ins : list Input) (a : AState) : list Frame :=
  match ins with
  | [] => []
  | i :: rest => let a' := astep_fn i a in a_shown a' :: shown_trace rest a'
  end.

(** The state [__init__] sets up. *)
Definition a_init : AState := {|
  a_loc := Standing; a_dir := FaceRight; a_cursor := 0; a_timer := 0;
  a_xv := 0; a_vy := 0; a_shown := FStanding FaceRight |}.

Inductive reachable : AState -> Prop :=
  | reach_init : reachable a_init
  | reach_step i a a' : reachable a -> astep i a a' -> reachable a'.

(** What holds in every reachable state. *)
Definition a_inv (a : AState) : Prop :=
  0 <= a_cursor a < Z.of_nat N /\ a_xv a = 0%Q /\
  (a_loc a = Jumping -> a_vy a = inject_Z jump_vel) /\
  (a_loc a <> Jumping -> a_vy a = 0%Q).
End Abstract.

(** ** The refinement relation *)

Section Refinement.
Context {img : Type} `{ImageProvider img}.
Context (c : Consts).

Definition enc_dir (d : Dir) : string :=
  match d with FaceRight => c.(RIGHT) | FaceLeft => c.(LEFT) end.

Definition enc_loc (l : Loc) : string :=
  match l with
  | Standing => c.(STANDING) | Walking => c.(WALKING) | Jumping => c.(JUMPING)
  end.

(** The input of a tick, read off [pygame.key.get_pressed()]. *)
Definition keys_input (keys : Keys) (t dt : Q) : Input := {|
  in_right := keys Pygame.K_RIGHT; in_left := keys Pygame.K_LEFT;
  in_space := keys Pygame.K_SPACE; in_time := t; in_dt := dt |}.

(** [self.image] is the frame the abstract state says is on display. *)
Definition shows (p : Player img) (f : Frame) : Prop :=
  match f with
  | FStanding d => p.(standing_image_dict) !! enc_dir d = Some p.(image)
  | FWalking d k => exists il, p.(walking_image_dict) !! enc_dir d = Some il /\
                      py_getitem il k = inr p.(image)
  | FJumping d => p.(jumping_image_dict) !! enc_dir d = Some p.(image)
  end.

(** What [__init__] builds and a tick never changes: the frame
    dictionaries, the dispatch table and the rect. *)
Definition same_frames (p p' : Player img) : Prop :=
  p'.(walking_image_dict) = p.(walking_image_dict) /\
  p'.(standing_image_dict) = p.(standing_image_dict) /\
  p'.(jumping_image_dict) = p.(jumping_image_dict) /\
  p'.(state_dict) = p.(state_dict) /\ p'.(rect) = p.(rect).

Definition refines (N : nat) (p : Player img) (a : AState) : Prop :=
  (0 < N)%nat /\ p.(state_dict) = make_state_dict c /\ frames_ok c p N /\
  0 <= p.(index) < Z.of_nat N /\
  p.(state) = enc_loc (a_loc a) /\ p.(direction) = enc_dir (a_dir a) /\
  p.(index) = a_cursor a /\ p.(timer) = a_timer a /\
  p.(x_vel) = a_xv a /\ p.(y_vel) = a_vy a /\ shows p (a_shown a).
End Refinement.

(** ** Theorems of the abstract machine *)

(** Close the goals [a_inv] breaks into. *)
Ltac inv_close :=
  unfold a_inv; simpl; repeat split; try lia; try (intros; congruence);
  try (left; congruence); try (right; congruence); auto.

Section AbstractTheorems.
Context (N : nat) (slowest jump_vel : Z).

(** Every state has a handler: the table is total. *)
Lemma astep_total i a : exists a', astep N slowest jump_vel i a a'.
Proof. destruct (a_loc a) eqn:E; eexists; by econstructor. Qed.

Lemma astep_deterministic i a a1 a2 :
  astep N slowest jump_vel i a a1 -> astep N slowest jump_vel i a a2 -> a1 = a2.
Proof. intros H1 H2. destruct H1; inversion H2; congruence. Qed.

(** Every reachable abstract state satisfies [a_inv]: the cursor lies
    inside the walk cycle, and [x_vel] stays [0].  The vertical velocity is
    the launch value while the player jumps, and [0] otherwise. *)
Theorem reachable_inv a :
  (0 < N)%nat -> reachable N slowest jump_vel a -> a_inv N jump_vel a.
Proof.
  intros HN Hr. induction Hr as [|i a a' _ IH Hs].
  - inv_close.
  - destruct IH as (Hcur & Hxv & Hvy & Hgr).
    destruct Hs as [a Hl|a Hl|a Hl]; unfold jump_vy; simpl.
    + assert (a_vy a = 0%Q) by (apply Hgr; congruence).
      destruct (in_space i), (in_right i), (in_left i); simpl; inv_close.
    + assert (a_vy a = 0%Q) by (apply Hgr; congruence).
      pose proof (Z.mod_pos_bound (a_cursor a + 1) (Z.of_nat N)).
      destruct (in_space i), (advances _ i a); simpl; inv_close.
    + assert (a_vy a = inject_Z jump_vel) by (by apply Hvy). inv_close.
Qed.

(** Runs of the machine on a sequence of inputs. *)
Inductive asteps : list Input -> AState -> AState -> Prop :=
  | asteps_nil a : asteps [] a a
  | asteps_cons i ins a a' a'' :
      astep N slowest jump_vel i a a' -> asteps ins a' a'' -> asteps (i :: ins) a a''.

(** A run of the machine is determined by its inputs. *)
Lemma asteps_deterministic ins a a1 a2 :
  asteps ins a a1 -> asteps ins a a2 -> a1 = a2.
Proof.
  intros H1. revert a2. induction H1 as [|i ins a a' a'' Hs _ IH]; intros a2 H2;
    inversion H2 as [|? ? ? a1' ? Hs1 Hr1]; subst; [done|].
  apply IH. by rewrite (astep_deterministic _ _ _ _ Hs Hs1).
Qed.

(** The step function computes the step relation. *)
Lemma astep_fn_spec i a a' :
  astep N slowest jump_vel i a a' <-> a' = astep_fn N slowest jump_vel i a.
Proof.
  split.
  - destruct 1 as [a Hl|a Hl|a Hl]; unfold astep_fn; by rewrite Hl.
  - intros ->. unfold astep_fn. destruct (a_loc a) eqn:Hl; by constructor.
Qed.

Lemma asteps_app_inv l1 l2 a a'' :
  asteps (l1 ++ l2) a a'' -> exists a', asteps l1 a a' /\ asteps l2 a' a''.
Proof.
  revert a. induction l1 as [|i l1 IH]; intros a Hs; simpl in Hs.
  - exists a. split; [constructor|done].
  - inversion Hs as [|? ? ? a1 ? Hst Hrest]; subst.
    destruct (IH a1 Hrest) as (a' & H1 & H2). exists a'. split; [econstructor|]; eauto.
Qed.

Lemma asteps_reachable ins a a' :
  reachable N slowest jump_vel a -> asteps ins a a' ->
  reachable N slowest jump_vel a'.
Proof. intros Hr Hs. induction Hs; eauto using reachable. Qed.

Lemma astep_xv i a a' :
  astep N slowest jump_vel i a a' -> a_xv a' = a_xv a.
Proof. by destruct 1. Qed.

Lemma astep_dir i a a' :
  astep N slowest jump_vel i a a' -> a_dir a' = face i (a_dir a).
Proof. by destruct 1. Qed.

(** A jump never ends.  Once the player is jumping, every later
    state is jumping, whatever the input, and the vertical velocity never
    changes: no tick integrates it against gravity. *)
Theorem jumping_forever ins a a' :
  a_loc a = Jumping -> asteps ins a a' ->
  a_loc a' = Jumping /\ a_vy a' = a_vy a.
Proof.
  intros Hj Hs. induction Hs as [|i ins a1 a2 a3 Hst _ IH]; [done|].
  inversion Hst; subst; try congruence. simpl in IH. by apply IH.
Qed.

(** At rest ([x_vel = 0]) the threshold is [SLOWEST_FREQUENCY], and the
    walk cycle advances exactly when more time than that has passed. *)
Lemma advances_rest i a :
  a_xv a = 0%Q ->
  advances slowest i a = py_gt (in_time i - a_timer a)%Q (inject_Z slowest).
Proof.
  intros Hx. unfold advances, threshold. rewrite Hx.
  apply py_gt_proper; [reflexivity|]. rewrite Qabs_pos by lra. ring.
Qed.

(** Ticks that keep a walking player walking without moving its cursor:
    no Jump, and no more than [SLOWEST_FREQUENCY] after the timer [t0]. *)
Definition quiet (t0 : Q) (i : Input) : Prop :=
  in_space i = false /\ (in_time i - t0 <= inject_Z slowest)%Q.

(** Ticks that each come more than [SLOWEST_FREQUENCY] after the previous
    one (the first after [t0]), none with Jump. *)
Fixpoint paced (t0 : Q) (ins : list Input) : Prop :=
  match ins with
  | [] => True
  | i :: rest => in_space i = false /\ (inject_Z slowest < in_time i - t0)%Q /\
                 paced (in_time i) rest
  end.

Lemma walking_quiet_run ins a a' :
  a_loc a = Walking -> a_xv a = 0%Q -> Forall (quiet (a_timer a)) ins ->
  asteps ins a a' ->
  a_loc a' = Walking /\ a_cursor a' = a_cursor a /\ a_timer a' = a_timer a /\
  a_xv a' = 0%Q.
Proof.
  intros Hl Hx Hq Hs. induction Hs as [|i ins a1 a2 a3 Hst _ IH]; [done|].
  apply Forall_cons in Hq as [[Hsp Ht] Hq].
  inversion Hst as [|? Hw|]; subst; try congruence; simpl in *.
  rewrite advances_rest, Hsp in IH by done. apply py_gt_false in Ht.
  rewrite Ht in IH. by apply IH.
Qed.

(** The gate of the walk cycle: quiet ticks, then one more than
    [SLOWEST_FREQUENCY] after the timer, advance the cursor exactly once. *)
Lemma walking_gate ins i a a' :
  a_loc a = Walking -> a_xv a = 0%Q -> Forall (quiet (a_timer a)) ins ->
  (inject_Z slowest < in_time i - a_timer a)%Q ->
  asteps (ins ++ [i]) a a' ->
  a_cursor a' = (a_cursor a + 1) mod Z.of_nat N /\ a_timer a' = in_time i /\
  a_loc a' = (if in_space i then Jumping else Walking).
Proof.
  intros Hl Hx Hq Ht Hs. destruct (asteps_app_inv _ _ _ _ Hs) as (a1 & H1 & H2).
  destruct (walking_quiet_run _ _ _ Hl Hx Hq H1) as (Hl1 & Hc1 & Ht1 & Hx1).
  inversion H2 as [|? ? ? a2 ? Hst Hnil]; subst. inversion Hnil; subst.
  inversion Hst as [|? Hw|]; subst; try congruence; simpl.
  rewrite advances_rest, Ht1 by done.
  assert (Hg : py_gt (in_time i - a_timer a) (inject_Z slowest) = true)
    by (by apply py_gt_spec). by rewrite Hg, Hc1.
Qed.

Lemma walking_paced_run ins a a' :
  a_loc a = Walking -> a_xv a = 0%Q -> 0 <= a_cursor a < Z.of_nat N ->
  paced (a_timer a) ins -> asteps ins a a' ->
  a_loc a' = Walking /\ a_xv a' = 0%Q /\
  a_cursor a' = (a_cursor a + Z.of_nat (length ins)) mod Z.of_nat N.
Proof.
  intros Hl Hx Hc0 Hp Hs.
  induction Hs as [|i ins a1 a2 a3 Hst _ IH]; simpl in *.
  - rewrite Z.add_0_r, Z.mod_small by lia. done.
  - destruct Hp as (Hsp & Ht & Hp).
    inversion Hst as [|? Hw|]; subst; try congruence; simpl in *.
    rewrite advances_rest, Hsp in IH by done.
    assert (Hg : py_gt (in_time i - a_timer a1) (inject_Z slowest) = true)
      by (by apply py_gt_spec). rewrite Hg in IH.
    pose proof (Z.mod_pos_bound (a_cursor a1 + 1) (Z.of_nat N)).
    destruct IH as (-> & -> & ->); [done|done|lia|done|].
    split_and!; [done|done|]. rewrite Zplus_mod_idemp_l. f_equal. lia.
Qed.

(** A walking step at rest that passes the gate, in closed form. *)
Lemma astep_fn_paced i a :
  a_loc a = Walking -> a_xv a = 0%Q -> in_space i = false ->
  (inject_Z slowest < in_time i - a_timer a)%Q ->
  astep_fn N slowest jump_vel i a = {|
    a_loc := Walking; a_dir := face i (a_dir a);
    a_cursor := (a_cursor a + 1) mod Z.of_nat N; a_timer := in_time i;
    a_xv := a_xv a; a_vy := a_vy a; a_shown := FWalking (a_dir a) (a_cursor a) |}.
Proof.
  intros Hl Hx Hsp Ht. unfold astep_fn, jump_vy. rewrite Hl, advances_rest, Hsp by done.
  by rewrite (proj2 (py_gt_spec _ _) Ht).
Qed.

(** The frames a paced walk shows, when no tick turns the player: the walk
    cycle from the cursor on, one frame per tick. *)
Lemma shown_trace_paced ins a :
  a_loc a = Walking -> a_xv a = 0%Q -> 0 <= a_cursor a < Z.of_nat N ->
  paced (a_timer a) ins -> Forall (fun i => face i (a_dir a) = a_dir a) ins ->
  shown_trace N slowest jump_vel ins a =
  map (fun j : nat => FWalking (a_dir a) ((a_cursor a + Z.of_nat j) mod Z.of_nat N))
    (seq 0 (length ins)).
Proof.
  revert a. induction ins as [|i ins IH]; intros a Hl Hx Hc0 Hp Hf; [done|].
  destruct Hp as (Hsp & Ht & Hp). apply Forall_cons in Hf as [Hfi Hf].
  simpl. rewrite astep_fn_paced by done. simpl.
  pose proof (Z.mod_pos_bound (a_cursor a + 1) (Z.of_nat N)).
  rewrite IH by (simpl; rewrite ?Hfi; done || lia). simpl. rewrite Hfi.
  f_equal; [by rewrite Z.add_0_r, Z.mod_small|].
  rewrite <- seq_shift, map_map. apply map_ext. intros j.
  rewrite Zplus_mod_idemp_l. do 2 f_equal. lia.
Qed.

(** The timer holds its old value or the clock of a tick of the run. *)
Lemma asteps_timer ins a a' :
  asteps ins a a' ->
  a_timer a' = a_timer a \/ exists i, In i ins /\ a_timer a' = in_time i.
Proof.
  induction 1 as [|i ins a a' a'' Hs _ IH]; [by left|].
  assert (Ht : a_timer a' = a_timer a \/ a_timer a' = in_time i)
    by (destruct Hs; simpl; repeat case_match; auto).
  destruct IH as [E | (j & Hj & E)]; rewrite E.
  - destruct Ht as [E' | E']; rewrite E'; [by left|right; exists i; by split; [left|]].
  - right. exists j. by split; [right|].
Qed.
End AbstractTheorems.

(** ** [Player.update] implements the abstract machine *)

Ltac refines_close :=
  unfold refines, same_frames; simpl; split_and!; try done; try lia;
  try assumption.

Section RefinementProofs.
Context {img : Type} `{ImageProvider img}.
Context (c : Consts).
Hypothesis Hc : consts_wf c.

Lemma enc_dir_is_dir d : is_dir c (enc_dir c d).
Proof. destruct d; [left|right]; done. Qed.

Lemma enc_loc_inj l1 l2 : enc_loc c l1 = enc_loc c l2 -> l1 = l2.
Proof.
  destruct Hc as (H1 & H2 & H3 & _).
  destruct l1, l2; simpl; intros E; done || (symmetry in E; done).
Qed.

Lemma enc_dir_face keys t dt d :
  enc_dir c (face (keys_input keys t dt) d) =
  if keys Pygame.K_RIGHT then c.(RIGHT)
  else if keys Pygame.K_LEFT then c.(LEFT) else enc_dir c d.
Proof.
  unfold face; simpl. by destruct (keys Pygame.K_RIGHT), (keys Pygame.K_LEFT).
Qed.

Lemma refines_wf N (p : Player img) a : refines c N p a -> wf_player c p.
Proof.
  intros (HN & Hsd & Hfr & Hidx & Hst & Hdir & _).
  repeat split; [done| |by rewrite Hdir; apply enc_dir_is_dir|by exists N].
  rewrite Hst. destruct (a_loc a); unfold is_state; simpl; auto.
Qed.

Lemma refines_frames N (p : Player img) a :
  refines c N p a ->
  (exists il, p.(walking_image_dict) !! p.(direction) = Some il /\
              length il = N) /\
  (exists im, p.(standing_image_dict) !! p.(direction) = Some im) /\
  (exists im, p.(jumping_image_dict) !! p.(direction) = Some im).
Proof.
  intros (_ & _ & Hfr & _ & _ & Hdir & _). rewrite Hdir.
  destruct (Hfr _ (enc_dir_is_dir (a_dir a))) as (Hw & [im1 Hs] & [im2 Hj]).
  eauto.
Qed.

Lemma update_dispatch keys t dt N (p : Player img) a :
  refines c N p a ->
  update c keys t dt p =
  call_method c (match a_loc a with
                 | Standing => M_standing | Walking => M_walking
                 | Jumping => M_jumping end) keys t dt p.
Proof.
  intros (_ & Hsd & _ & _ & Hst & _).
  destruct (make_state_dict_lookup c Hc) as (Hs & Hw & Hj).
  unfold update. py_unfold. rewrite Hsd, Hst.
  destruct (a_loc a); simpl;
    [rewrite (dict_getitem_Some _ _ _ Hs)|rewrite (dict_getitem_Some _ _ _ Hw)
    |rewrite (dict_getitem_Some _ _ _ Hj)]; done.
Qed.

Lemma standing_refines keys t dt N (p : Player img) a :
  refines c N p a -> a_loc a = Standing ->
  exists p' a', standing c keys t dt p = inr (tt, p') /\
    astep N c.(SLOWEST_FREQUENCY) c.(START_JUMP_VEL) (keys_input keys t dt) a a' /\
    refines c N p' a' /\ same_frames p p'.
Proof.
  intros Hr Hl. destruct (refines_frames N p a Hr) as (_ & [im Him] & _).
  pose proof Hr as (HN & Hsd & Hfr & Hidx & Hst & Hdir & Hi & Ht & Hx & Hy & _).
  rewrite Hl in Hst.
  unfold standing. py_unfold. rewrite (dict_getitem_Some _ _ _ Him).
  rewrite Hdir in Him.
  destruct (keys Pygame.K_RIGHT) eqn:ER, (keys Pygame.K_LEFT) eqn:EL,
    (keys Pygame.K_SPACE) eqn:ES; simpl;
    (eexists _, _; split; [reflexivity|split; [by apply step_standing|]]);
    unfold jump_vy, face; simpl; rewrite ?ER, ?EL, ?ES; refines_close.
Qed.

Lemma walking_refines keys t dt N (p : Player img) a :
  refines c N p a -> a_loc a = Walking ->
  exists p' a', walking c keys t dt p = inr (tt, p') /\
    astep N c.(SLOWEST_FREQUENCY) c.(START_JUMP_VEL) (keys_input keys t dt) a a' /\
    refines c N p' a' /\ same_frames p p'.
Proof.
  intros Hr Hl. destruct (refines_frames N p a Hr) as ([il [Hil Hlen]] & _).
  pose proof Hr as (HN & Hsd & Hfr & Hidx & Hst & Hdir & Hi & Ht & Hx & Hy & _).
  rewrite Hl in Hst.
  destruct (py_getitem_in_range il (index p)) as (x & _ & Hxi); [lia|].
  unfold walking. py_unfold. rewrite (dict_getitem_Some _ _ _ Hil).
  simpl. rewrite Hxi. simpl.
  rewrite (animate_run c t dt _ il), cursor_wrap by (simpl; lia || done). simpl.
  replace (py_gt _ _) with (advances c.(SLOWEST_FREQUENCY) (keys_input keys t dt) a)
    by (unfold advances, threshold, spec_animation_speed; simpl; by rewrite Ht, Hx).
  rewrite Hlen, Hi. rewrite Hdir in Hil. rewrite Hi in Hxi.
  pose proof (Z.mod_pos_bound (a_cursor a + 1) (Z.of_nat N)).
  destruct (advances _ _ a) eqn:EA, (keys Pygame.K_RIGHT) eqn:ER,
    (keys Pygame.K_LEFT) eqn:EL, (keys Pygame.K_SPACE) eqn:ES; simpl;
    (eexists _, _; split; [reflexivity|split; [by apply step_walking|]]);
    unfold jump_vy, face; simpl; rewrite ?EA, ?ER, ?EL, ?ES; refines_close; eauto.
Qed.

Lemma jumping_refines keys t dt N (p : Player img) a :
  refines c N p a -> a_loc a = Jumping ->
  exists p' a', jumping c keys t dt p = inr (tt, p') /\
    astep N c.(SLOWEST_FREQUENCY) c.(START_JUMP_VEL) (keys_input keys t dt) a a' /\
    refines c N p' a' /\ same_frames p p'.
Proof.
  intros Hr Hl. destruct (refines_frames N p a Hr) as (_ & _ & [im Him]).
  pose proof Hr as (HN & Hsd & Hfr & Hidx & Hst & Hdir & Hi & Ht & Hx & Hy & _).
  rewrite Hl in Hst.
  unfold jumping. py_unfold. rewrite (dict_getitem_Some _ _ _ Him).
  rewrite Hdir in Him.
  destruct (keys Pygame.K_RIGHT) eqn:ER, (keys Pygame.K_LEFT) eqn:EL; simpl;
    (eexists _, _; split; [reflexivity|split; [by apply step_jumping|]]);
    unfold face; simpl; rewrite ?ER, ?EL; refines_close.
Qed.

(** One tick of the simulation, with the frame dictionaries kept. *)
Lemma update_step keys t dt N (p : Player img) a :
  refines c N p a ->
  exists p' a', update c keys t dt p = inr (tt, p') /\
    astep N c.(SLOWEST_FREQUENCY) c.(START_JUMP_VEL) (keys_input keys t dt) a a' /\
    refines c N p' a' /\ same_frames p p'.
Proof.
  intros Hr. rewrite (update_dispatch keys t dt N p a Hr).
  destruct (a_loc a) eqn:El; simpl;
    [apply standing_refines|apply walking_refines|apply jumping_refines]; done.
Qed.

(** (C3) Forward simulation.  From a player that refines an abstract
    state, [update] returns, and the player it leaves refines the abstract
    state that the spec's table steps to on the same keys and clock. *)
Theorem update_refines keys t dt N (p : Player img) a :
  refines c N p a ->
  exists p' a', update c keys t dt p = inr (tt, p') /\
    astep N c.(SLOWEST_FREQUENCY) c.(START_JUMP_VEL) (keys_input keys t dt) a a' /\
    refines c N p' a'.
Proof.
  intros Hr. destruct (update_step keys t dt N p a Hr) as (p' & a' & ? & ? & ? & _).
  by exists p', a'.
Qed.

(** ** What one tick does, read off the simulation *)

Ltac tick keys t dt Hr :=
  let p' := fresh "p'" in let a' := fresh "a'" in let Hu := fresh "Hu" in
  let Hs := fresh "Hs" in let Hr' := fresh "Hr'" in
  let Hf := fresh "Hf" in
  destruct (update_step keys t dt _ _ _ Hr) as (p' & a' & Hu & Hs & Hr' & Hf);
  exists p'; split; [exact Hu|];
  destruct Hr as (? & ? & ? & ? & ?Hst & ?Hdir & ?Hi & ?Ht & ?Hx & ?Hy & ?Hsh);
  destruct Hr' as (? & ? & ? & ? & ?Hst' & ?Hdir' & ?Hi' & ?Ht' & ?Hx' & ?Hy' & ?Hsh').

(** (C7) Direction precedence.  After a tick the player faces right if
    Right is held, whatever Left does.  Otherwise it faces left if Left is
    held, and otherwise it keeps its direction.  This holds in every
    state. *)
Theorem update_direction keys t dt N (p : Player img) a :
  refines c N p a ->
  exists p', update c keys t dt p = inr (tt, p') /\
    p'.(direction) = if keys Pygame.K_RIGHT then c.(RIGHT)
                     else if keys Pygame.K_LEFT then c.(LEFT)
                     else p.(direction).
Proof.
  intros Hr. tick keys t dt Hr.
  by rewrite Hdir', (astep_dir _ _ _ _ _ _ Hs), enc_dir_face, Hdir.
Qed.

(** (C8) Jump entry.  From standing or walking, a tick with Jump held
    leaves the player jumping, with the launch velocity [START_JUMP_VEL]. *)
Theorem update_jump_entry keys t dt N (p : Player img) a :
  refines c N p a -> p.(state) <> c.(JUMPING) ->
  keys Pygame.K_SPACE = true ->
  exists p', update c keys t dt p = inr (tt, p') /\
    p'.(state) = c.(JUMPING) /\ p'.(y_vel) = inject_Z c.(START_JUMP_VEL).
Proof.
  intros Hr Hnj Hsp. tick keys t dt Hr.
  rewrite Hst in Hnj. rewrite Hst', Hy'.
  inversion Hs as [? Hl|? Hl|? Hl]; subst; simpl; unfold jump_vy; simpl;
    rewrite ?Hsp; [done|done|by rewrite Hl in Hnj].
Qed.

(** (C9) A standing tick.  Right or Left starts the walk: the cursor goes
    back to [0] and the timer to the clock.  Jump overrides the state but
    not that reset, so a jump taken with a direction key held also resets
    the cursor and turns the player. *)
Theorem update_standing keys t dt N (p : Player img) a :
  refines c N p a -> p.(state) = c.(STANDING) ->
  exists p', update c keys t dt p = inr (tt, p') /\
    p'.(state) = (if keys Pygame.K_SPACE then c.(JUMPING)
                  else if keys Pygame.K_RIGHT || keys Pygame.K_LEFT
                  then c.(WALKING) else c.(STANDING)) /\
    p'.(index) = (if keys Pygame.K_RIGHT || keys Pygame.K_LEFT then 0
                  else p.(index)) /\
    p'.(timer) = (if keys Pygame.K_RIGHT || keys Pygame.K_LEFT then t
                  else p.(timer)).
Proof.
  intros Hr Hs0. tick keys t dt Hr.
  rewrite Hst in Hs0. apply (enc_loc_inj _ Standing) in Hs0.
  inversion Hs as [? Hl|? Hl|? Hl]; subst; try congruence; simpl in *.
  rewrite Hst', Hi', Ht', Hi, Ht.
  by destruct (keys Pygame.K_SPACE), (keys Pygame.K_RIGHT), (keys Pygame.K_LEFT).
Qed.

(** (C10) Pacing at rest.  With [x_vel = 0], a walking tick advances the
    cursor by one modulo the cycle length exactly when more than
    [SLOWEST_FREQUENCY] time units have passed since the timer, and then
    restarts the timer at the clock.  Otherwise cursor and timer keep their
    values. *)
Theorem update_walking_pacing keys t dt N (p : Player img) a :
  refines c N p a -> p.(state) = c.(WALKING) -> p.(x_vel) = 0%Q ->
  exists p', update c keys t dt p = inr (tt, p') /\
    p'.(index) = (if py_gt (t - p.(timer))%Q (inject_Z c.(SLOWEST_FREQUENCY))
                  then (p.(index) + 1) mod Z.of_nat N else p.(index)) /\
    p'.(timer) = (if py_gt (t - p.(timer))%Q (inject_Z c.(SLOWEST_FREQUENCY))
                  then t else p.(timer)).
Proof.
  intros Hr Hw Hx0. tick keys t dt Hr.
  rewrite Hst in Hw. apply (enc_loc_inj _ Walking) in Hw.
  inversion Hs as [? Hl|? Hl|? Hl]; subst; try congruence; simpl in *.
  assert (Hadv : advances c.(SLOWEST_FREQUENCY) (keys_input keys t dt) a =
                 py_gt (t - timer p)%Q (inject_Z c.(SLOWEST_FREQUENCY))).
  { unfold advances, threshold; simpl. rewrite <- Ht, <- Hx, Hx0.
    apply py_gt_proper; [reflexivity|]. rewrite Qabs_pos by lra. ring. }
  rewrite Hi', Ht', Hadv, Hi, Ht. by destruct (py_gt _ _).
Qed.

(** (C11) The frame a tick shows is chosen before the tick's input acts.
    It is the standing or jumping pose, or walk-cycle frame [index], for
    the direction the player faced when the tick began.  A new direction
    or cursor shows from the next tick on.  The frame sets themselves are
    built once and read only: a tick changes neither the three frame
    dictionaries nor the dispatch table, nor the rect, nor [x_vel]. *)
Theorem update_shows keys t dt N (p : Player img) a :
  refines c N p a ->
  exists p', update c keys t dt p = inr (tt, p') /\
    (p.(state) = c.(STANDING) ->
       p.(standing_image_dict) !! p.(direction) = Some p'.(image)) /\
    (p.(state) = c.(WALKING) ->
       exists il, p.(walking_image_dict) !! p.(direction) = Some il /\
                  py_getitem il p.(index) = inr p'.(image)) /\
    (p.(state) = c.(JUMPING) ->
       p.(jumping_image_dict) !! p.(direction) = Some p'.(image)) /\
    same_frames p p' /\ p'.(x_vel) = p.(x_vel).
Proof.
  intros Hr. pose proof Hc as (D1 & D2 & D3 & _). tick keys t dt Hr.
  split_and!; [| | |done|by rewrite Hx', (astep_xv _ _ _ _ _ _ Hs), Hx].
  all: destruct Hf as (Ew & Es & Ej & _); rewrite <- ?Ew, <- ?Es, <- ?Ej, Hst, Hdir, ?Hi;
    inversion Hs as [? Hl|? Hl|? Hl]; subst; simpl in *; rewrite Hl; simpl;
    intros E; try congruence; exact Hsh'.
Qed.

(** (C26) The transitions of the spec's table, for the code.  Standing
    goes to Jumping on Jump, else to Walking on Right or Left, else stays.
    Walking goes to Jumping on Jump and otherwise keeps walking, even with
    no key held.  Jumping stays jumping. *)
Theorem update_state_table keys t dt N (p : Player img) a :
  refines c N p a ->
  exists p', update c keys t dt p = inr (tt, p') /\
    (p.(state) = c.(STANDING) ->
       p'.(state) = if keys Pygame.K_SPACE then c.(JUMPING)
                    else if keys Pygame.K_RIGHT || keys Pygame.K_LEFT
                    then c.(WALKING) else c.(STANDING)) /\
    (p.(state) = c.(WALKING) ->
       p'.(state) = if keys Pygame.K_SPACE then c.(JUMPING) else c.(WALKING)) /\
    (p.(state) = c.(JUMPING) -> p'.(state) = c.(JUMPING)).
Proof.
  intros Hr. pose proof Hc as (D1 & D2 & D3 & _). tick keys t dt Hr.
  rewrite Hst', Hst.
  inversion Hs as [? Hl|? Hl|? Hl]; subst; simpl; rewrite Hl; simpl;
    split_and!; intros E; try (exfalso; congruence);
    by destruct (keys Pygame.K_SPACE), (keys Pygame.K_RIGHT), (keys Pygame.K_LEFT).
Qed.

(** (C27) A jumping tick holds a single static pose.  It shows the jumping
    pose for the direction the player faced when the tick began, and
    leaves the state, the cursor, the timer and the vertical velocity as
    they were. *)
Theorem update_jumping keys t dt N (p : Player img) a :
  refines c N p a -> p.(state) = c.(JUMPING) ->
  exists p', update c keys t dt p = inr (tt, p') /\
    p'.(state) = c.(JUMPING) /\ p'.(index) = p.(index) /\
    p'.(timer) = p.(timer) /\ p'.(y_vel) = p.(y_vel) /\
    p.(jumping_image_dict) !! p.(direction) = Some p'.(image).
Proof.
  intros Hr Hj. tick keys t dt Hr.
  rewrite Hst in Hj. apply (enc_loc_inj _ Jumping) in Hj.
  inversion Hs as [? Hl|? Hl|? Hl]; subst; try congruence; simpl in *.
  destruct Hf as (_ & _ & Ej & _). rewrite <- Ej, Hdir.
  by rewrite Hst', Hi', Ht', Hy', Hi, Ht, Hy.
Qed.
End RefinementProofs.
