(* ===== verification/Loop.v ===== *)
(** * The game loop: a player's whole life

    The frame loop that drives the player is in the repository's [tools]
    module, which is not among the sources.  The spec describes it: each
    tick, it calls [update(keys, current_time, dt)] once, with the keyboard,
    the clock and the frame time.  [run_updates] is that loop over a finite
    list of ticks.

    [run_updates_refines] lifts the one-tick simulation of [Machine] to whole
    runs.  [player_lifetime] combines it with the construction theorem: a
    player built by [__init__] and driven by any sequence of ticks never
    raises, and it satisfies the invariants of the abstract machine.
    [jump_is_final] states the spec's open gap about jumps for the code:
    once the player jumps, no sequence of ticks brings it back to the
    ground.  [pacing_gate] and [walk_cycle_paced] are the pacing of
    section 4.3 over many ticks: quiet ticks ([quiet_tick]) hold the cursor,
    and ticks spaced more than [SLOWEST_FREQUENCY] apart ([paced_ticks])
    move it once per tick.  Both are proved on the abstract machine
    ([walking_quiet_run], [walking_paced_run]) and carried over by the
    simulation.  On a steady clock ([steady_ticks]: the clock moves by
    [delta] each tick) the wait for the next walk frame ends: it takes
    exactly [frame_wait delta] ticks ([next_frame_within]), with the quiet
    ticks before it run by [quiet_run].  [walk_start_pacing] is the spec's
    scenario A for every clock: construction, then three ticks with Right
    held, computed through the table's step function ([update_fn]).  [run_frames] is the loop with the frame the renderer
    draws after each tick, and [play] a whole session: [Player()] built
    from the sheets, then the loop. *)

From S2P Require Import Prelude Constants Image Frames Player Machine.
Open Scope Z_scope.

Section Loop.
Context {img : Type} `{ImageProvider img}.
Context (c : Consts).

(** One tick of the loop: the keyboard, the clock and the frame time. *)
Definition Tick : Type := (Keys * Q * Q)%type.

Fixpoint run_updates (ticks : list Tick) : PyM (Player img) unit :=
  match ticks with
  | [] => skip
  | (keys, current_time, dt) :: rest =>
      update c keys current_time dt ;; run_updates rest
  end.

(** The loop with its output: after each [update], the renderer draws
    [self.image] (spec section 6: the single frame to render this tick). *)
Fixpoint run_frames (ticks : list Tick) : PyM (Player img) (list img) :=
  match ticks with
  | [] => pret []
  | (keys, current_time, dt) :: rest =>
      update c keys current_time dt ;;
      frame <- gets image ;;
      frames <- run_frames rest ;;
      pret (frame :: frames)
  end.

(** A session: [Player()] built from the sheets, then the loop. *)
Definition play (GFX : gmap string img) (ticks : list Tick) :
    Result (list img * Player img) :=
  p <- Player_init c GFX ;;
  run_frames ticks p.

Definition tick_input (tk : Tick) : Input :=
  let '(keys, t, dt) := tk in keys_input keys t dt.

(** Ticks from a clock that moves [delta] per tick from [t0], all with the
    same keys: the [k]-th comes at [t0 + k * delta]. *)
Definition steady_ticks (keys : Keys) (t0 delta dt : Q) (n : nat) : list Tick :=
  map (fun k : nat => (keys, (t0 + inject_Z (Z.of_nat (S k)) * delta)%Q, dt))
    (seq 0 n).

(** How many such ticks the walk cycle waits for its next frame. *)
Definition frame_wait (delta : Q) : nat :=
  S (Z.to_nat (Qfloor (inject_Z c.(SLOWEST_FREQUENCY) / delta))).

(** A tick with Jump released, at most [SLOWEST_FREQUENCY] after [t0]. *)
Definition quiet_tick (t0 : Q) (tk : Tick) : Prop :=
  let '(keys, t, _) := tk in
  keys Pygame.K_SPACE = false /\ (t - t0 <= inject_Z c.(SLOWEST_FREQUENCY))%Q.

(** Ticks with Jump released, each more than [SLOWEST_FREQUENCY] after the
    one before (the first after [t0]). *)
Fixpoint paced_ticks (t0 : Q) (ticks : list Tick) : Prop :=
  match ticks with
  | [] => True
  | (keys, t, _) :: rest =>
      keys Pygame.K_SPACE = false /\
      (inject_Z c.(SLOWEST_FREQUENCY) < t - t0)%Q /\ paced_ticks t rest
  end.
End Loop.

Section LoopProofs.
Context {img : Type} `{ImageProvider img}.
Context (c : Consts).
Hypothesis Hc : consts_wf c.

(** The simulation over whole runs.  From a player that refines an
    abstract state, the game loop never raises on any list of ticks.  The
    player it ends with refines the state the abstract machine reaches on
    the same inputs. *)
Lemma run_updates_refines ticks N (p : Player img) a :
  refines c N p a ->
  exists p' a', run_updates c ticks p = inr (tt, p') /\
    asteps N c.(SLOWEST_FREQUENCY) c.(START_JUMP_VEL) (map tick_input ticks) a a' /\
    refines c N p' a'.
Proof.
  revert p a. induction ticks as [|[[keys t] dt] ticks IH]; intros p a Hr.
  - exists p, a. split_and!; [done|constructor|done].
  - destruct (update_step c Hc keys t dt N p a Hr)
      as (p1 & a1 & Hu & Hs & Hr1 & _).
    destruct (IH p1 a1 Hr1) as (p2 & a2 & Hrun & Hss & Hr2).
    exists p2, a2. split_and!; [|econstructor; eauto|done].
    simpl. py_unfold. by rewrite Hu.
Qed.

Lemma quiet_tick_input t0 tk :
  quiet_tick c t0 tk -> quiet c.(SLOWEST_FREQUENCY) t0 (tick_input tk).
Proof. by destruct tk as [[keys t] dt]. Qed.

Lemma paced_ticks_input t0 ticks :
  paced_ticks c t0 ticks -> paced c.(SLOWEST_FREQUENCY) t0 (map tick_input ticks).
Proof.
  revert t0. induction ticks as [|[[keys t] dt] ticks IH]; [done|].
  intros t0 (Hs & Ht & Hp). split_and!; [done|done|by apply IH].
Qed.

(** A walking player at rest, as the abstract machine sees it. *)
Lemma refines_walking_rest N (p : Player img) a :
  refines c N p a -> p.(state) = c.(WALKING) -> p.(x_vel) = 0%Q ->
  a_loc a = Walking /\ a_xv a = 0%Q.
Proof.
  intros (_ & _ & _ & _ & Hst & _ & _ & _ & Hx & _) Hw Hx0.
  rewrite Hst in Hw. split; [by apply (enc_loc_inj c Hc _ Walking)|congruence].
Qed.

(** The player [__init__] builds refines the abstract initial state, with a
    walk cycle of 11 frames. *)
Lemma Player_init_refines (GFX : gmap string img) walk stand jump p :
  GFX !! "p1_walking" = Some walk -> GFX !! "p1_stand" = Some stand ->
  GFX !! "p1_jumping" = Some jump -> Player_init c GFX = inr p ->
  refines c 11 p a_init.
Proof.
  intros Hw Hs Hj Hi. pose proof Hc as (_ & _ & _ & Hrl).
  rewrite (Player_init_closed c GFX walk stand jump Hrl Hw Hs Hj) in Hi.
  injection Hi as <-. split_and!; try done; try (simpl; lia).
  - by apply init_player_frames.
  - simpl. unfold dir_dict. by rewrite py_dict_two_l.
Qed.

(** One tick, with the abstract state computed by the table's step
    function. *)
Lemma update_fn keys t dt N (p : Player img) a :
  refines c N p a ->
  exists p', update c keys t dt p = inr (tt, p') /\
    refines c N p' (astep_fn N c.(SLOWEST_FREQUENCY) c.(START_JUMP_VEL) (keys_input keys t dt) a).
Proof.
  intros Hr. destruct (update_step c Hc keys t dt N p a Hr) as (p' & a' & Hu & Hs & Hr' & _).
  apply astep_fn_spec in Hs as ->. by exists p'.
Qed.

(** The fields of a refined player that a test observes. *)
Lemma refines_observe N (p : Player img) a :
  refines c N p a ->
  p.(state) = enc_loc c (a_loc a) /\ p.(direction) = enc_dir c (a_dir a) /\
  p.(index) = a_cursor a /\ p.(timer) = a_timer a.
Proof. intros (_ & _ & _ & _ & ? & ? & ? & ? & _). done. Qed.

(** (C21) Scenario A of the spec, for every clock, every configuration
    with distinct names and every set of sheets.  [Player()] is built, then
    three ticks come with Right held and Jump not held, at [t1], [t2] and
    [t3].  The first starts the walk facing right at cursor [0] and restarts
    the timer at [t1].  When [t2 - t1 <= SLOWEST_FREQUENCY] the second
    leaves cursor and timer alone.  When [t3 - t1 > SLOWEST_FREQUENCY] the
    third moves the cursor to [1] and restarts the timer at [t3]. *)
Theorem walk_start_pacing (GFX : gmap string img) walk stand jump (k1 k2 k3 : Keys)
    (t1 t2 t3 dt1 dt2 dt3 : Q) :
  GFX !! "p1_walking" = Some walk -> GFX !! "p1_stand" = Some stand ->
  GFX !! "p1_jumping" = Some jump ->
  k1 Pygame.K_RIGHT = true -> k2 Pygame.K_RIGHT = true -> k3 Pygame.K_RIGHT = true ->
  k1 Pygame.K_SPACE = false -> k2 Pygame.K_SPACE = false -> k3 Pygame.K_SPACE = false ->
  (t2 - t1 <= inject_Z c.(SLOWEST_FREQUENCY))%Q ->
  (inject_Z c.(SLOWEST_FREQUENCY) < t3 - t1)%Q ->
  exists p0 p1 p2 p3,
    Player_init c GFX = inr p0 /\ update c k1 t1 dt1 p0 = inr (tt, p1) /\
    update c k2 t2 dt2 p1 = inr (tt, p2) /\ update c k3 t3 dt3 p2 = inr (tt, p3) /\
    p1.(state) = c.(WALKING) /\ p1.(direction) = c.(RIGHT) /\ p1.(index) = 0 /\
    p1.(timer) = t1 /\
    p2.(state) = c.(WALKING) /\ p2.(direction) = c.(RIGHT) /\ p2.(index) = 0 /\
    p2.(timer) = t1 /\
    p3.(state) = c.(WALKING) /\ p3.(direction) = c.(RIGHT) /\ p3.(index) = 1 /\
    p3.(timer) = t3.
Proof.
  intros Hw Hs Hj R1 R2 R3 S1 S2 S3 H2 H3. pose proof Hc as (_ & _ & _ & Hrl).
  pose proof (Player_init_closed c GFX walk stand jump Hrl Hw Hs Hj) as Hi.
  pose proof (Player_init_refines GFX walk stand jump _ Hw Hs Hj Hi) as Hr0.
  assert (E1 : astep_fn 11 c.(SLOWEST_FREQUENCY) c.(START_JUMP_VEL) (keys_input k1 t1 dt1) a_init =
    {| a_loc := Walking; a_dir := FaceRight; a_cursor := 0; a_timer := t1;
       a_xv := 0; a_vy := 0; a_shown := FStanding FaceRight |}).
  { unfold astep_fn, face, jump_vy, keys_input; simpl. by rewrite R1, S1. }
  assert (E2 : astep_fn 11 c.(SLOWEST_FREQUENCY) c.(START_JUMP_VEL) (keys_input k2 t2 dt2)
    {| a_loc := Walking; a_dir := FaceRight; a_cursor := 0; a_timer := t1;
       a_xv := 0; a_vy := 0; a_shown := FStanding FaceRight |} =
    {| a_loc := Walking; a_dir := FaceRight; a_cursor := 0; a_timer := t1;
       a_xv := 0; a_vy := 0; a_shown := FWalking FaceRight 0 |}).
  { unfold astep_fn. cbn [a_loc]. rewrite advances_rest by done.
    cbn [in_time keys_input a_timer]. rewrite (proj2 (py_gt_false _ _) H2).
    unfold face, jump_vy, keys_input; simpl. by rewrite R2, S2. }
  assert (E3 : astep_fn 11 c.(SLOWEST_FREQUENCY) c.(START_JUMP_VEL) (keys_input k3 t3 dt3)
    {| a_loc := Walking; a_dir := FaceRight; a_cursor := 0; a_timer := t1;
       a_xv := 0; a_vy := 0; a_shown := FWalking FaceRight 0 |} =
    {| a_loc := Walking; a_dir := FaceRight; a_cursor := 1; a_timer := t3;
       a_xv := 0; a_vy := 0; a_shown := FWalking FaceRight 0 |}).
  { unfold astep_fn. cbn [a_loc]. rewrite advances_rest by done.
    cbn [in_time keys_input a_timer]. rewrite (proj2 (py_gt_spec _ _) H3).
    unfold face, jump_vy, keys_input; simpl. by rewrite R3, S3. }
  destruct (update_fn k1 t1 dt1 _ _ _ Hr0) as (p1 & Hu1 & Hr1). rewrite E1 in Hr1.
  destruct (update_fn k2 t2 dt2 _ _ _ Hr1) as (p2 & Hu2 & Hr2). rewrite E2 in Hr2.
  destruct (update_fn k3 t3 dt3 _ _ _ Hr2) as (p3 & Hu3 & Hr3). rewrite E3 in Hr3.
  apply refines_observe in Hr1, Hr2, Hr3. simpl in Hr1, Hr2, Hr3.
  exists (init_player c walk stand jump), p1, p2, p3. naive_solver.
Qed.

(** (C12) A player's lifetime.  The player [__init__] builds from the three
    sheets, driven by any sequence of ticks, never raises.  It stays
    well-formed, its cursor stays inside the 11-frame cycle and [x_vel]
    stays [0].  Its vertical velocity is [0] until it jumps and the launch
    value from then on. *)
Theorem player_lifetime (GFX : gmap string img) walk stand jump p0 ticks :
  GFX !! "p1_walking" = Some walk -> GFX !! "p1_stand" = Some stand ->
  GFX !! "p1_jumping" = Some jump -> Player_init c GFX = inr p0 ->
  exists p, run_updates c ticks p0 = inr (tt, p) /\ wf_player c p /\
    0 <= p.(index) < 11 /\ p.(x_vel) = 0%Q /\
    (p.(state) <> c.(JUMPING) -> p.(y_vel) = 0%Q) /\
    (p.(state) = c.(JUMPING) -> p.(y_vel) = inject_Z c.(START_JUMP_VEL)).
Proof.
  intros Hw Hs Hj Hi.
  pose proof (Player_init_refines GFX walk stand jump p0 Hw Hs Hj Hi) as Hr0.
  destruct (run_updates_refines ticks 11 p0 _ Hr0) as (p & a & Hrun & Hss & Hr).
  assert (Hreach : reachable 11 c.(SLOWEST_FREQUENCY) c.(START_JUMP_VEL) a)
    by (eapply asteps_reachable; [constructor|exact Hss]).
  destruct (reachable_inv 11 _ _ a ltac:(lia) Hreach) as (Hcur & Hxv & Hvy & Hgr).
  exists p. split; [done|]. split; [by eapply refines_wf|].
  destruct Hr as (_ & _ & _ & _ & Hst & _ & Hi' & _ & Hx & Hy & _).
  rewrite Hi', Hx, Hy, Hst. split_and!; [lia|lia|done| |].
  - intros Hnj. apply Hgr. intros E. apply Hnj. by rewrite E.
  - intros E. apply Hvy. by apply (enc_loc_inj c Hc _ Jumping).
Qed.

(** (C13) Jumping is final.  A jumping player stays jumping whatever keys
    the following ticks bring, and its vertical velocity stays the launch
    value: no code path lands the jump or applies [GRAVITY]. *)
Theorem jump_is_final ticks N (p : Player img) a :
  refines c N p a -> p.(state) = c.(JUMPING) ->
  exists p', run_updates c ticks p = inr (tt, p') /\
    p'.(state) = c.(JUMPING) /\ p'.(y_vel) = p.(y_vel).
Proof.
  intros Hr Hj.
  destruct (run_updates_refines ticks N p a Hr) as (p' & a' & Hrun & Hss & Hr').
  pose proof Hr as (_ & _ & _ & _ & Hst & _ & _ & _ & _ & Hy & _).
  rewrite Hst in Hj. apply (enc_loc_inj c Hc _ Jumping) in Hj.
  destruct (jumping_forever _ _ _ _ _ _ Hj Hss) as [Hl' Hvy'].
  destruct Hr' as (_ & _ & _ & _ & Hst' & _ & _ & _ & _ & Hy' & _).
  exists p'. split_and!; [done| |]; [by rewrite Hst', Hl'|by rewrite Hy', Hvy', Hy].
Qed.

(** Quiet ticks leave a walking player at rest walking, with its cursor
    and timer. *)
Lemma quiet_run ticks N (p : Player img) a :
  refines c N p a -> p.(state) = c.(WALKING) -> p.(x_vel) = 0%Q ->
  Forall (quiet_tick c p.(timer)) ticks ->
  exists p1 a1, run_updates c ticks p = inr (tt, p1) /\ refines c N p1 a1 /\
    a_loc a1 = Walking /\ a_cursor a1 = a_cursor a /\ a_timer a1 = a_timer a /\
    a_xv a1 = 0%Q.
Proof.
  intros Hr Hw Hx0 Hq.
  destruct (refines_walking_rest N p a Hr Hw Hx0) as [Hl Hxa].
  destruct (run_updates_refines ticks N p a Hr) as (p1 & a1 & Hrun & Hss & Hr1).
  pose proof Hr as (_ & _ & _ & _ & _ & _ & _ & Ht0 & _).
  exists p1, a1. split_and!; [done|done|..];
    apply (walking_quiet_run N c.(SLOWEST_FREQUENCY) c.(START_JUMP_VEL)
             (map tick_input ticks) a a1 Hl Hxa); try done;
    rewrite <- Ht0; apply Forall_map, (Forall_impl _ _ _ Hq), quiet_tick_input.
Qed.

(** (C28) The pacing gate over several ticks.  Take a walking player at
    rest with timer [t0].  Ticks without Jump that come at most
    [SLOWEST_FREQUENCY] after [t0] leave it walking with the same cursor
    and timer, however many there are.  The first tick more than
    [SLOWEST_FREQUENCY] after [t0] advances the cursor by exactly one,
    modulo the cycle length, and restarts the timer. *)
Theorem pacing_gate ticks keys t dt N (p : Player img) a :
  refines c N p a -> p.(state) = c.(WALKING) -> p.(x_vel) = 0%Q ->
  Forall (quiet_tick c p.(timer)) ticks ->
  (inject_Z c.(SLOWEST_FREQUENCY) < t - p.(timer))%Q ->
  exists p1 p2, run_updates c ticks p = inr (tt, p1) /\
    p1.(state) = c.(WALKING) /\ p1.(index) = p.(index) /\
    p1.(timer) = p.(timer) /\
    update c keys t dt p1 = inr (tt, p2) /\
    p2.(index) = (p.(index) + 1) mod Z.of_nat N /\ p2.(timer) = t.
Proof.
  intros Hr Hw Hx0 Hq Ht.
  destruct (quiet_run ticks N p a Hr Hw Hx0 Hq)
    as (p1 & a1 & Hrun & Hr1 & Hl1 & Hc1 & Ht1 & Hx1).
  pose proof Hr as (_ & _ & _ & _ & _ & _ & Hi & Ht0 & _).
  destruct (update_step c Hc keys t dt N p1 a1 Hr1) as (p2 & a2 & Hu & Hs & Hr2 & _).
  pose proof Hr1 as (_ & _ & _ & _ & Hst1 & _ & Hi1 & Htm1 & _).
  pose proof Hr2 as (_ & _ & _ & _ & _ & _ & Hi2 & Htm2 & _).
  inversion Hs as [? Hl'|? Hl'|? Hl']; subst; try congruence; simpl in *.
  rewrite advances_rest in Hi2, Htm2 by done. simpl in Hi2, Htm2.
  rewrite Ht1, <- Ht0 in Hi2, Htm2.
  assert (Hg : py_gt (t - timer p) (inject_Z c.(SLOWEST_FREQUENCY)) = true)
    by (by apply py_gt_spec). rewrite Hg in Hi2, Htm2.
  exists p1, p2. split_and!; [done|by rewrite Hst1, Hl1|by rewrite Hi1, Hc1
    |by rewrite Htm1, Ht1|done|by rewrite Hi2, Hc1, Hi|done].
Qed.

(** (C29) The walk cycle runs.  Drive a walking player at rest with ticks
    that each come more than [SLOWEST_FREQUENCY] after the one before (the
    first after the player's timer), none with Jump.  It keeps walking, and
    after [k] ticks its cursor has moved [k] frames around the cycle, so
    every frame of the cycle is shown within [N] ticks. *)
Theorem walk_cycle_paced ticks N (p : Player img) a :
  refines c N p a -> p.(state) = c.(WALKING) -> p.(x_vel) = 0%Q ->
  paced_ticks c p.(timer) ticks ->
  exists p', run_updates c ticks p = inr (tt, p') /\
    p'.(state) = c.(WALKING) /\
    p'.(index) = (p.(index) + Z.of_nat (length ticks)) mod Z.of_nat N.
Proof.
  intros Hr Hw Hx0 Hp.
  destruct (refines_walking_rest N p a Hr Hw Hx0) as [Hl Hxa].
  destruct (run_updates_refines ticks N p a Hr) as (p' & a' & Hrun & Hss & Hr').
  pose proof Hr as (_ & _ & _ & Hidx & _ & _ & Hi & Ht0 & _).
  destruct (walking_paced_run N c.(SLOWEST_FREQUENCY) c.(START_JUMP_VEL) (map tick_input ticks) a a' Hl Hxa)
    as (Hl' & _ & Hc'); [lia| |done|].
  { rewrite <- Ht0. by apply paced_ticks_input. }
  pose proof Hr' as (_ & _ & _ & _ & Hst' & _ & Hi' & _).
  exists p'. rewrite length_map in Hc'.
  split_and!; [done|by rewrite Hst', Hl'|by rewrite Hi', Hc', Hi].
Qed.

(** (C33) The loop follows every run of the spec's machine.  If the abstract
    machine goes from [a] to [a'] on the inputs of a list of ticks, the
    game loop started from a player that refines [a] returns a player that
    refines [a'].  Since the machine is deterministic, this is the one state
    it reaches. *)
Theorem run_updates_trace ticks N (p : Player img) a a' :
  refines c N p a ->
  asteps N c.(SLOWEST_FREQUENCY) c.(START_JUMP_VEL) (map tick_input ticks) a a' ->
  exists p', run_updates c ticks p = inr (tt, p') /\ refines c N p' a'.
Proof.
  intros Hr Hs.
  destruct (run_updates_refines ticks N p a Hr) as (p' & a'' & Hrun & Hs' & Hr').
  rewrite (asteps_deterministic _ _ _ _ _ _ _ Hs Hs'). by exists p'.
Qed.

(** (C36) The animation timer only ever holds a clock value.  After any run
    of the loop, [self.timer] is the value it had before the run or the
    [current_time] of one of the run's ticks.  So with a clock that only
    moves forward, the timer is never ahead of the clock and
    [current_time - self.timer] is never negative. *)
Theorem timer_from_clock ticks N (p : Player img) a :
  refines c N p a ->
  exists p', run_updates c ticks p = inr (tt, p') /\
    (p'.(timer) = p.(timer) \/
     exists keys t dt, (keys, t, dt) ∈ ticks /\ p'.(timer) = t).
Proof.
  intros Hr.
  destruct (run_updates_refines ticks N p a Hr) as (p' & a' & Hrun & Hs & Hr').
  pose proof Hr as (_ & _ & _ & _ & _ & _ & _ & Ht & _).
  pose proof Hr' as (_ & _ & _ & _ & _ & _ & _ & Ht' & _).
  exists p'. split; [done|]. rewrite Ht', Ht.
  destruct (asteps_timer _ _ _ _ _ _ Hs) as [Heq | (i & Hi & Heq)]; [by left|right].
  apply in_map_iff in Hi as ([[keys t] dt] & <- & Hin).
  exists keys, t, dt. split; [by apply list_elem_of_In|done].
Qed.

Lemma steady_ticks_S keys t0 delta dt n :
  steady_ticks keys t0 delta dt (S n) =
  steady_ticks keys t0 delta dt n ++
    [(keys, (t0 + inject_Z (Z.of_nat (S n)) * delta)%Q, dt)].
Proof. unfold steady_ticks. by rewrite seq_S, map_app. Qed.

(** Before [frame_wait delta] ticks, every tick of a steady clock is quiet. *)
Lemma steady_ticks_quiet keys t0 delta dt k :
  keys Pygame.K_SPACE = false -> (0 < delta)%Q -> (k < frame_wait c delta)%nat ->
  Forall (quiet_tick c t0) (steady_ticks keys t0 delta dt k).
Proof.
  intros Hs Hd Hk. unfold steady_ticks. apply List.Forall_forall.
  intros x Hx. apply in_map_iff in Hx as (j & <- & Hj). apply in_seq in Hj.
  split; [done|].
  pose proof (Qfloor_mul_le (inject_Z c.(SLOWEST_FREQUENCY)) delta j Hd
                ltac:(unfold frame_wait in Hk; lia)).
  lra.
Qed.

(** (C31) The wait for the next frame ends.  Drive a walking player at rest
    with a clock that moves [delta > 0] per tick and Jump released.  For the
    first [frame_wait delta - 1 = floor (SLOWEST_FREQUENCY / delta)] ticks it
    keeps walking on the same frame; the tick after that, number
    [frame_wait delta], always comes and moves the cursor on by one. *)
Theorem next_frame_within keys delta dt N (p : Player img) a :
  refines c N p a -> p.(state) = c.(WALKING) -> p.(x_vel) = 0%Q ->
  keys Pygame.K_SPACE = false -> (0 < delta)%Q ->
  (forall k, (k < frame_wait c delta)%nat ->
     exists pk, run_updates c (steady_ticks keys p.(timer) delta dt k) p = inr (tt, pk) /\
       pk.(state) = c.(WALKING) /\ pk.(index) = p.(index)) /\
  exists p', run_updates c (steady_ticks keys p.(timer) delta dt (frame_wait c delta)) p
               = inr (tt, p') /\
    p'.(state) = c.(WALKING) /\ p'.(index) = (p.(index) + 1) mod Z.of_nat N.
Proof.
  intros Hr Hw Hx0 Hsp Hd.
  pose proof Hr as (_ & _ & _ & _ & _ & _ & Hi & Ht0 & _).
  split.
  - intros k Hk.
    destruct (quiet_run _ N p a Hr Hw Hx0 (steady_ticks_quiet keys _ delta dt k Hsp Hd Hk))
      as (pk & ak & Hrun & Hrk & Hl & Hcur & _).
    pose proof Hrk as (_ & _ & _ & _ & Hst & _ & Hik & _).
    exists pk. split_and!; [done|by rewrite Hst, Hl|by rewrite Hik, Hcur, Hi].
  - destruct (refines_walking_rest N p a Hr Hw Hx0) as [Hl Hxa].
    unfold frame_wait at 1.
    set (m := Z.to_nat (Qfloor (inject_Z c.(SLOWEST_FREQUENCY) / delta))).
    rewrite steady_ticks_S.
    destruct (run_updates_refines (steady_ticks keys (timer p) delta dt m ++
                [(keys, (timer p + inject_Z (Z.of_nat (S m)) * delta)%Q, dt)]) N p a Hr)
      as (p' & a' & Hrun & Hss & Hr').
    rewrite map_app in Hss.
    destruct (walking_gate N c.(SLOWEST_FREQUENCY) c.(START_JUMP_VEL)
                (map tick_input (steady_ticks keys (timer p) delta dt m))
                (tick_input (keys, (timer p + inject_Z (Z.of_nat (S m)) * delta)%Q, dt))
                a a' Hl Hxa)
      as (Hc' & _ & Hl'); [| |exact Hss|].
    + rewrite <- Ht0. apply Forall_map.
      refine (Forall_impl _ _ _ (steady_ticks_quiet keys _ delta dt _ Hsp Hd _) _);
        [unfold frame_wait; lia|apply quiet_tick_input].
    + simpl. rewrite <- Ht0.
      pose proof (Qfloor_mul_gt (inject_Z c.(SLOWEST_FREQUENCY)) delta Hd) as Hg.
      fold m in Hg. lra.
    + pose proof Hr' as (_ & _ & _ & _ & Hst' & _ & Hi' & _).
      exists p'. simpl in Hl'. rewrite Hsp in Hl'.
      split_and!; [done|by rewrite Hst', Hl'|by rewrite Hi', Hc', Hi].
Qed.
End LoopProofs.
