(* ===== verification/Equiv.v ===== *)
(** * Players built from equivalent sheets behave alike

    The controller never looks inside an image: it cuts frames with
    [get_image], mirrors them with [flip], reads sizes with [get_rect], and
    otherwise only stores and hands frames on.  So the player built from one
    set of sheets and the player built from sheets that are equal as images
    (an [img_equiv] of the provider's [ImageLaws], for rasters the
    extensional [raster_equiv]) must behave alike: the same states,
    directions, cursors and timers on every tick, and equivalent frames on
    display.  This file proves it, against the provider's laws only.  The
    result is parametricity: it would hold of any controller built from
    the interface's operations, so it says the model is representation
    independent, not that [player.py] computes the right frames.

    [player_rel] relates two players that agree on every attribute, the
    images up to [img_equiv].  [res_rel] lifts a relation to results of the
    Python monad: the same exception, or related values.  [pym_rel] is the
    relation of two methods that map related players to related results, as
    a [Proper] signature.  Each method of [Player] is [Proper] for it, the
    constructor maps equivalent sheet dictionaries to related players, and
    the game loop keeps players related over any run.  The frames the loop
    renders ([run_frames]) are then equivalent tick by tick. *)

From S2P Require Import Prelude Constants Image Frames Player Machine Loop.
From Stdlib Require Import Morphisms.
Open Scope Z_scope.

(** ** Relations on results and dictionaries *)

Variant res_rel {A B} (R : A -> B -> Prop) : Result A -> Result B -> Prop :=
  | res_err e : res_rel R (inl e) (inl e)
  | res_ok a b : R a b -> res_rel R (inr a) (inr b).
#[export] Hint Constructors res_rel : core.

Definition pair_rel {A1 A2 B1 B2} (RA : A1 -> A2 -> Prop) (RB : B1 -> B2 -> Prop)
    (x : A1 * B1) (y : A2 * B2) : Prop :=
  RA x.1 y.1 /\ RB x.2 y.2.

(** Two dictionaries with the same keys and related values. *)
Definition dict_rel {V W} (R : V -> W -> Prop) (d : gmap string V) (e : gmap string W) :
    Prop :=
  forall k, option_Forall2 R (d !! k) (e !! k).

(** Two methods that map related objects to related results. *)
Definition pym_rel {S A} (RA : A -> A -> Prop) (RS : S -> S -> Prop)
    (m1 m2 : PyM S A) : Prop :=
  forall s1 s2, RS s1 s2 -> res_rel (pair_rel RA RS) (m1 s1) (m2 s2).

Section Lifting.
Context {S : Type} (RS : S -> S -> Prop).

Lemma pym_rel_bind {A B} (RA : A -> A -> Prop) (RB : B -> B -> Prop)
    (m1 m2 : PyM S A) (f g : A -> PyM S B) :
  pym_rel RA RS m1 m2 -> (forall a b, RA a b -> pym_rel RB RS (f a) (g b)) ->
  pym_rel RB RS (pbind m1 f) (pbind m2 g).
Proof.
  intros Hm Hf s1 s2 Hs. simpl. destruct (Hm s1 s2 Hs) as [|[a s1'] [b s2'] [Ha Hs']];
    [constructor|]. by apply Hf.
Qed.

Lemma pym_rel_gets {A} (RA : A -> A -> Prop) (f : S -> A) :
  (forall s1 s2, RS s1 s2 -> RA (f s1) (f s2)) -> pym_rel RA RS (gets f) (gets f).
Proof. intros Hf s1 s2 Hs. constructor. split; [by apply Hf|done]. Qed.

Lemma pym_rel_modify (f g : S -> S) :
  (forall s1 s2, RS s1 s2 -> RS (f s1) (g s2)) ->
  pym_rel eq RS (modify f) (modify g).
Proof. intros Hf s1 s2 Hs. constructor. split; [done|by apply Hf]. Qed.

Lemma pym_rel_lift {A} (RA : A -> A -> Prop) (r1 r2 : Result A) :
  res_rel RA r1 r2 -> pym_rel RA RS (lift r1) (lift r2).
Proof. intros Hr s1 s2 Hs. destruct Hr; simpl; constructor; by split. Qed.

Lemma pym_rel_ret {A} (RA : A -> A -> Prop) (a b : A) :
  RA a b -> pym_rel RA RS (pret a) (pret b).
Proof. intros Hab s1 s2 Hs. constructor. by split. Qed.

Lemma pym_rel_skip : pym_rel eq RS skip skip.
Proof. by apply pym_rel_ret. Qed.
End Lifting.

(** ** Python's lookups respect related containers *)

Lemma dict_getitem_rel {V W} (R : V -> W -> Prop) d e k :
  dict_rel R d e -> res_rel R (dict_getitem d k) (dict_getitem e k).
Proof.
  intros Hde. unfold dict_getitem. specialize (Hde k).
  destruct Hde; constructor; done.
Qed.

Lemma py_getitem_rel {V W} (R : V -> W -> Prop) (l : list V) (l' : list W) i :
  Forall2 R l l' -> res_rel R (py_getitem l i) (py_getitem l' i).
Proof.
  intros Hl. unfold py_getitem. rewrite (Forall2_length _ _ _ Hl). cbv zeta.
  destruct (0 <=? _); [|constructor].
  pose proof (proj1 (Forall2_lookup _ _ _) Hl (Z.to_nat (if i <? 0 then
    i + Z.of_nat (length l') else i))) as Hj.
  destruct Hj; constructor; done.
Qed.

(** A dict display of related values under the same keys. *)
Lemma py_dict_rel {V W} (R : V -> W -> Prop) (kvs : list (string * V))
    (kws : list (string * W)) :
  Forall2 (fun kv kw => kv.1 = kw.1 /\ R kv.2 kw.2) kvs kws ->
  dict_rel R (py_dict kvs) (py_dict kws).
Proof.
  unfold py_dict. intros Hkv.
  assert (H0 : dict_rel R (∅ : gmap string V) (∅ : gmap string W))
    by (intros k; rewrite !lookup_empty; constructor).
  revert H0. generalize (∅ : gmap string V) (∅ : gmap string W).
  induction Hkv as [|[k1 v] [k2 w] kvs kws [Hk Hvw] _ IH]; intros m1 m2 Hm;
    simpl in *; [done|].
  apply IH. intros k. subst k2. rewrite !lookup_insert.
  destruct (decide (k1 = k)); [by constructor|apply Hm].
Qed.

(** ** Related players *)

Section Players.
Context {img : Type} `{ImageLaws img}.
Context (c : Consts).

(** Two players that agree on every attribute, images up to [img_equiv]. *)
Record player_rel (p q : Player img) : Prop := {
  pr_state_dict : p.(state_dict) = q.(state_dict);
  pr_state : p.(state) = q.(state);
  pr_walking : dict_rel (Forall2 img_equiv) p.(walking_image_dict) q.(walking_image_dict);
  pr_standing : dict_rel img_equiv p.(standing_image_dict) q.(standing_image_dict);
  pr_jumping : dict_rel img_equiv p.(jumping_image_dict) q.(jumping_image_dict);
  pr_index : p.(index) = q.(index);
  pr_timer : p.(timer) = q.(timer);
  pr_direction : p.(direction) = q.(direction);
  pr_x_vel : p.(x_vel) = q.(x_vel);
  pr_y_vel : p.(y_vel) = q.(y_vel);
  pr_image : img_equiv p.(image) q.(image);
  pr_rect : p.(rect) = q.(rect);
  pr_image_list : option_Forall2 (Forall2 img_equiv) p.(image_list) q.(image_list)
}.

Ltac rel_setter := intros ?? []; constructor; simpl; auto; by constructor.

Lemma set_state_rel v : forall p q, player_rel p q -> player_rel (set_state v p) (set_state v q).
Proof. rel_setter. Qed.
Lemma set_index_rel v : forall p q, player_rel p q -> player_rel (set_index v p) (set_index v q).
Proof. rel_setter. Qed.
Lemma set_timer_rel v : forall p q, player_rel p q -> player_rel (set_timer v p) (set_timer v q).
Proof. rel_setter. Qed.
Lemma set_direction_rel v :
  forall p q, player_rel p q -> player_rel (set_direction v p) (set_direction v q).
Proof. rel_setter. Qed.
Lemma set_y_vel_rel v : forall p q, player_rel p q -> player_rel (set_y_vel v p) (set_y_vel v q).
Proof. rel_setter. Qed.
Lemma set_image_rel a b :
  img_equiv a b -> forall p q, player_rel p q -> player_rel (set_image a p) (set_image b q).
Proof. intros ?; rel_setter. Qed.
Lemma set_image_list_rel l l' :
  Forall2 img_equiv l l' ->
  forall p q, player_rel p q -> player_rel (set_image_list l p) (set_image_list l' q).
Proof. intros ?; rel_setter. Qed.

(** The attributes read with [gets], as relations between the two reads. *)
Lemma gets_eq_rel {A} (f : Player img -> A) :
  (forall p q, player_rel p q -> f p = f q) -> pym_rel eq player_rel (gets f) (gets f).
Proof. apply pym_rel_gets. Qed.

Lemma get_image_list_rel :
  pym_rel (Forall2 img_equiv) player_rel (get_image_list (img:=img)) get_image_list.
Proof.
  intros p q Hpq. unfold get_image_list.
  destruct (pr_image_list _ _ Hpq); constructor; by split.
Qed.

Lemma res_rel_eq_refl {A} (r : Result A) : res_rel eq r r.
Proof. destruct r; by constructor. Qed.

Create HintDb rel.
#[local] Hint Resolve set_state_rel set_index_rel set_timer_rel set_direction_rel
  set_y_vel_rel set_image_rel set_image_list_rel : rel.

(** One step of a relational proof of two runs of the same method: both
    sides read, write, branch and raise at the same points. *)
Ltac rel_atom :=
  first
    [ apply pym_rel_skip
    | apply pym_rel_ret; done
    | apply pym_rel_modify; eauto with rel
    | apply get_image_list_rel
    | apply pym_rel_gets; intros ?? [];
      first [eassumption | simpl; by constructor]
    | apply pym_rel_lift, dict_getitem_rel; eassumption
    | apply pym_rel_lift, py_getitem_rel; eassumption
    | apply pym_rel_lift, res_rel_eq_refl
    | solve [eauto with rel] ].

Ltac rel_auto :=
  repeat first
    [ progress subst
    | match goal with
      | H : Forall2 _ ?l ?l' |- context [length ?l] => rewrite (Forall2_length _ _ _ H)
      | |- pym_rel _ _ (pbind _ _) (pbind _ _) =>
          eapply pym_rel_bind; [solve [rel_auto]|intros ?? ?]
      | |- pym_rel _ _ (if ?b then _ else _) (if ?b then _ else _) => destruct b
      end
    | rel_atom ].

Lemma get_animation_speed_rel dt :
  pym_rel eq player_rel (get_animation_speed c dt) (get_animation_speed c dt).
Proof. unfold get_animation_speed. rel_auto. Qed.

Lemma enter_jump_state_rel : pym_rel eq player_rel (enter_jump_state c) (enter_jump_state c).
Proof. unfold enter_jump_state. rel_auto. Qed.
#[local] Hint Resolve get_animation_speed_rel enter_jump_state_rel : rel.

Lemma animate_rel t dt : pym_rel eq player_rel (animate c t dt) (animate c t dt).
Proof. unfold animate. rel_auto. Qed.
#[local] Hint Resolve animate_rel : rel.

Lemma standing_rel keys t dt : pym_rel eq player_rel (standing c keys t dt) (standing c keys t dt).
Proof. unfold standing. rel_auto. Qed.

Lemma walking_rel keys t dt : pym_rel eq player_rel (walking c keys t dt) (walking c keys t dt).
Proof. unfold walking. rel_auto. Qed.

Lemma jumping_rel keys t dt : pym_rel eq player_rel (jumping c keys t dt) (jumping c keys t dt).
Proof. unfold jumping. rel_auto. Qed.

Lemma update_rel keys t dt : pym_rel eq player_rel (update c keys t dt) (update c keys t dt).
Proof.
  unfold update. rel_auto.
  match goal with m : method |- _ => destruct m end;
    [apply standing_rel|apply walking_rel|apply jumping_rel].
Qed.
End Players.

(** ** Equivalent sheets give related players *)

Section Sheets.
Context {img : Type} `{ImageLaws img}.
Context (c : Consts).

Lemma res_rel_bind {A B C D} (RA : A -> B -> Prop) (RC : C -> D -> Prop)
    (r1 : Result A) (r2 : Result B) (f : A -> Result C) (g : B -> Result D) :
  res_rel RA r1 r2 -> (forall a b, RA a b -> res_rel RC (f a) (g b)) ->
  res_rel RC (pbind r1 f) (pbind r2 g).
Proof. intros [e|a b Hab] Hfg; simpl; [constructor|by apply Hfg]. Qed.

Lemma walking_frames_rel (s s' : img) :
  img_equiv s s' -> Forall2 img_equiv (walking_frames s) (walking_frames s').
Proof.
  intros Hs. apply Forall2_map_pointwise. intros k. unfold walking_cell. by rewrite Hs.
Qed.

Lemma mirror_frames_rel (s s' : img) :
  img_equiv s s' ->
  Forall2 img_equiv (map mirror (walking_frames s)) (map mirror (walking_frames s')).
Proof.
  intros Hs. unfold walking_frames. rewrite !map_map. apply Forall2_map_pointwise.
  intros k. unfold mirror, walking_cell. by rewrite Hs.
Qed.

Lemma dir_dict_rel {V W} (R : V -> W -> Prop) r l r' l' :
  R r r' -> R l l' -> dict_rel R (dir_dict c r l) (dir_dict c r' l').
Proof. intros Hr Hl. apply py_dict_rel. by repeat constructor. Qed.

(** The sheet read by a builder, and the dictionary it builds from it. *)
Ltac sheet_step HG :=
  eapply res_rel_bind; [apply dict_getitem_rel, HG|]; intros ?s ?s' ?Hs; constructor.

Lemma Player_init_rel (GFX GFX' : gmap string img) :
  dict_rel img_equiv GFX GFX' ->
  res_rel player_rel (Player_init c GFX) (Player_init c GFX').
Proof.
  intros HG. unfold Player_init. rewrite !walking_dict_closed.
  unfold make_standing_image_dict, make_jumping_image_dict.
  eapply (res_rel_bind (dict_rel (Forall2 img_equiv)));
    [sheet_step HG; by apply dir_dict_rel; [apply walking_frames_rel|apply mirror_frames_rel]|].
  intros wd wd' Hw.
  eapply (res_rel_bind (dict_rel img_equiv));
    [sheet_step HG; apply (dir_dict_rel img_equiv); [done|by rewrite Hs]|].
  intros sd sd' Hsd.
  eapply (res_rel_bind (dict_rel img_equiv));
    [sheet_step HG; apply (dir_dict_rel img_equiv); by rewrite Hs|].
  intros jd jd' Hjd. simpl.
  eapply res_rel_bind; [apply dict_getitem_rel, Hsd|]. intros im im' Him.
  do 2 constructor; simpl; try done; try constructor.
  unfold get_rect_y. by rewrite Him.
Qed.

Lemma run_frames_rel ticks :
  pym_rel (Forall2 img_equiv) player_rel (run_frames c ticks) (run_frames c ticks).
Proof.
  induction ticks as [|[[keys t] dt] ticks IH]; cbn [run_frames].
  - by apply pym_rel_ret.
  - eapply pym_rel_bind; [apply update_rel|intros _ _ _].
    eapply pym_rel_bind; [apply pym_rel_gets; intros ?? Hpq; apply (pr_image _ _ Hpq)|].
    intros im im' Him. eapply pym_rel_bind; [apply IH|]. intros ims ims' Hims.
    apply pym_rel_ret. by constructor.
Qed.

(** Equivalent sheets, equivalent sessions.  Build [Player()] from two
    sheet dictionaries whose sheets are equal as images, and drive both with
    the same ticks.  Either both raise the same exception, or both run: the
    frames rendered tick by tick are equivalent, and the players they end
    with agree on state, direction, cursor, timer and velocities, with
    equivalent frame sets. *)
Theorem play_equivalent_sheets (GFX GFX' : gmap string img) ticks :
  dict_rel img_equiv GFX GFX' ->
  res_rel (pair_rel (Forall2 img_equiv) player_rel) (play c GFX ticks) (play c GFX' ticks).
Proof.
  intros HG. unfold play. eapply res_rel_bind; [by apply Player_init_rel|].
  intros p p' Hp. by apply run_frames_rel.
Qed.

End Sheets.
