(* ===== verification/Render.v ===== *)
(** * What a session renders: the frames of the spec's table

    The spec says what the player shows on each tick: the standing pose for
    its direction, the walk-cycle frame at its cursor, or the jumping pose
    (sections 4.1 and 4.2).  [frame_of] reads an abstract [Frame] off the
    three sheets the way the frame builders lay them out: the right frames
    as cut, the left ones mirrored, except the left jumping pose, which is
    a cell of its own.  [shown_trace] (in [Machine]) lists the frames the
    table shows on a sequence of inputs.

    The theorem of this file composes the constructor, the controller and
    the loop: a session built by [Player()] renders, tick by tick, exactly
    [map frame_of] of the table's trace from [a_init].  It is an output
    refinement: what the renderer receives is determined by the spec's
    state machine alone.  [render_step] is the one-tick form every theorem
    here is built from.

    Two more theorems read the renderer's side of the spec.  Scenario B in
    general: a walking player that turns keeps its cursor, and the tick
    after the turn shows the mirror of the frame it showed before
    ([turn_keeps_phase]).  A full walk cycle: eleven paced ticks render the
    cycle once, rotated to start at the cursor ([walk_cycle_renders], with
    stdpp's [rotate]). *)

From S2P Require Import Prelude Constants Image Frames Player Machine Loop.
Open Scope Z_scope.

Section Render.
Context {img : Type} `{ImageProvider img}.
Context (c : Consts) (walk stand jump : img).

(** The walk cycle facing [d]. *)
Definition cycle (d : Dir) : list img :=
  match d with
  | FaceRight => walking_frames walk
  | FaceLeft => map mirror (walking_frames walk)
  end.

(** The image an abstract frame stands for.  A cursor outside the cycle
    never occurs on a run of the table ([a_inv]); [stand] fills that case. *)
Definition frame_of (f : Frame) : img :=
  match f with
  | FStanding FaceRight => stand
  | FStanding FaceLeft => mirror stand
  | FWalking d k => match py_getitem (cycle d) k with inr x => x | inl _ => stand end
  | FJumping FaceRight => get_image 0 0 66 97 jump
  | FJumping FaceLeft => get_image 66 0 66 97 jump
  end.

(** The frame dictionaries [__init__] builds from the three sheets. *)
Definition init_frames (p : Player img) : Prop :=
  p.(walking_image_dict) = dir_dict c (walking_frames walk) (map mirror (walking_frames walk)) /\
  p.(standing_image_dict) = dir_dict c stand (mirror stand) /\
  p.(jumping_image_dict) = dir_dict c (get_image 0 0 66 97 jump) (get_image 66 0 66 97 jump).

Lemma dir_dict_enc {V} (r l : V) (d : Dir) :
  c.(RIGHT) <> c.(LEFT) ->
  dir_dict c r l !! enc_dir c d = Some (match d with FaceRight => r | FaceLeft => l end).
Proof.
  intros Hrl. unfold dir_dict. destruct d; simpl;
    [by rewrite py_dict_two_l|by rewrite py_dict_two_r].
Qed.

(** A player with the frames of [__init__] that shows an abstract frame
    displays its [frame_of]. *)
Lemma shows_frame_of (p : Player img) (f : Frame) :
  c.(RIGHT) <> c.(LEFT) -> init_frames p -> shows c p f -> p.(image) = frame_of f.
Proof.
  intros Hrl (Hw & Hs & Hj). unfold shows. rewrite Hw, Hs, Hj.
  destruct f as [d|d k|d]; rewrite ?dir_dict_enc by done.
  - intros [= <-]. by destruct d.
  - intros (il & [= <-] & Hk). simpl. destruct d; simpl; by rewrite Hk.
  - intros [= <-]. by destruct d.
Qed.
Lemma enc_dir_inj d1 d2 : c.(RIGHT) <> c.(LEFT) -> enc_dir c d1 = enc_dir c d2 -> d1 = d2.
Proof. intros Hrl. destruct d1, d2; simpl; congruence. Qed.

Lemma length_cycle d : length (cycle d) = 11%nat.
Proof. destruct d; unfold cycle; by rewrite ?length_map, length_walking_frames. Qed.

(** A walk frame inside the cycle is the cycle's entry at the cursor. *)
Lemma frame_of_walking d k :
  0 <= k < 11 -> cycle d !! Z.to_nat k = Some (frame_of (FWalking d k)).
Proof.
  intros Hk. destruct (py_getitem_in_range (cycle d) k) as (x & Hx & Hg);
    [rewrite length_cycle; lia|].
  simpl. by rewrite Hg.
Qed.

Lemma frame_of_walking_cell d k :
  0 <= k < 11 ->
  frame_of (FWalking d k) =
  match d with FaceRight => walking_cell walk k | FaceLeft => mirror (walking_cell walk k) end.
Proof.
  intros Hk. pose proof (frame_of_walking d k Hk) as E.
  destruct d; unfold cycle in E;
    rewrite ?list_lookup_fmap, lookup_walking_frames, Z2Nat.id in E by lia;
    injection E as E; exact (eq_sym E).
Qed.

(** Eleven frames from cursor [k] on, wrapping around, are the cycle
    rotated to start at [k]. *)
Lemma rotate_cycle d k :
  0 <= k < 11 ->
  map frame_of (map (fun j : nat => FWalking d ((k + Z.of_nat j) mod Z.of_nat 11)) (seq 0 11))
  = rotate (Z.to_nat k) (cycle d).
Proof.
  intros Hk. apply list_eq. intros j. rewrite map_map, list_lookup_fmap.
  destruct (decide (j < 11)%nat) as [Hj|Hj].
  - rewrite lookup_seq_lt by done. simpl.
    rewrite lookup_rotate_r by (rewrite length_cycle; lia). rewrite length_cycle.
    unfold rotate_nat_add. rewrite Z2Nat.id by lia.
    pose proof (Z.mod_pos_bound (k + Z.of_nat j) 11).
    by rewrite frame_of_walking by lia.
  - rewrite lookup_seq_ge by lia. symmetry. apply lookup_ge_None_2.
    rewrite length_rotate, length_cycle. lia.
Qed.

(** A tick that leaves the facing direction [d] as it is. *)
Definition keeps_facing (d : Dir) (tk : Tick) : Prop := face (tick_input tk) d = d.
End Render.

Section RenderProofs.
Context {img : Type} `{ImageProvider img}.
Context (c : Consts) (walk stand jump : img).
Hypothesis Hc : consts_wf c.

(** One tick: the player steps as the table's step function says, keeps
    the frames of [__init__], and displays [frame_of] of the frame the new
    abstract state shows. *)
Lemma render_step keys t dt N (p : Player img) a :
  refines c N p a -> init_frames c walk stand jump p ->
  let a' := astep_fn N c.(SLOWEST_FREQUENCY) c.(START_JUMP_VEL) (keys_input keys t dt) a in
  exists p', update c keys t dt p = inr (tt, p') /\ refines c N p' a' /\
    init_frames c walk stand jump p' /\ p'.(image) = frame_of walk stand jump (a_shown a').
Proof.
  intros Hr Hf a'. pose proof Hc as (_ & _ & _ & Hrl).
  destruct (update_step c Hc keys t dt N p a Hr) as (p1 & a1 & Hu & Hs & Hr1 & Hsf).
  apply astep_fn_spec in Hs. subst a1.
  assert (Hf1 : init_frames c walk stand jump p1).
  { destruct Hsf as (Ew & Es & Ej & _), Hf as (Fw & Fs & Fj). split_and!; congruence. }
  pose proof Hr1 as (_ & _ & _ & _ & _ & _ & _ & _ & _ & _ & Hsh).
  exists p1. split_and!; [done|done|done|].
  exact (shows_frame_of c walk stand jump p1 _ Hrl Hf1 Hsh).
Qed.

(** The loop renders the table's trace, from any player with the frames of
    [__init__] that refines the table's state. *)
Lemma run_frames_trace ticks N (p : Player img) a :
  refines c N p a -> init_frames c walk stand jump p ->
  exists p', run_frames c ticks p =
    inr (map (frame_of walk stand jump)
           (shown_trace N c.(SLOWEST_FREQUENCY) c.(START_JUMP_VEL) (map tick_input ticks) a), p').
Proof.
  revert p a. induction ticks as [|[[keys t] dt] ticks IH]; intros p a Hr Hf.
  - by exists p.
  - destruct (render_step keys t dt N p a Hr Hf) as (p1 & Hu & Hr1 & Hf1 & Him).
    destruct (IH p1 _ Hr1 Hf1) as (p2 & Hrun).
    exists p2. cbn [run_frames map shown_trace]. py_unfold. rewrite Hu. simpl.
    by rewrite Hrun, Him.
Qed.

(** (C34) What a session renders is what the spec's table shows.  With
    distinct constants and the three sheets loaded, [Player()] followed by
    the game loop on any ticks renders, tick by tick, the image of the frame
    the table's run from the initial state puts on display: [frame_of] of
    [shown_trace].  No tick raises. *)
Theorem play_renders_table (GFX : gmap string img) ticks :
  GFX !! "p1_walking" = Some walk -> GFX !! "p1_stand" = Some stand ->
  GFX !! "p1_jumping" = Some jump ->
  exists p, play c GFX ticks =
    inr (map (frame_of walk stand jump)
           (shown_trace 11 c.(SLOWEST_FREQUENCY) c.(START_JUMP_VEL)
              (map tick_input ticks) a_init), p).
Proof.
  intros Hw Hs Hj. pose proof Hc as (_ & _ & _ & Hrl).
  pose proof (Player_init_closed c GFX walk stand jump Hrl Hw Hs Hj) as Hi.
  unfold play. rewrite Hi. py_unfold.
  apply run_frames_trace; [|done].
  exact (Player_init_refines c Hc GFX walk stand jump _ Hw Hs Hj Hi).
Qed.
(** (C22) Scenario B of the spec, for every walking player facing right.
    A tick with Left held and Right not held turns the player left, and the
    tick still shows right frame [k] at its cursor [k].  The next tick,
    whatever keys it holds, shows left frame [k]: the mirror of right frame
    [k].  The cursor is not reset.  Both ticks come before the pacing gate
    opens and hold no Jump. *)
Theorem turn_keeps_phase (k1 k2 : Keys) t1 t2 dt1 dt2 (p : Player img) a :
  refines c 11 p a -> init_frames c walk stand jump p ->
  p.(state) = c.(WALKING) -> p.(direction) = c.(RIGHT) -> p.(x_vel) = 0%Q ->
  k1 Pygame.K_RIGHT = false -> k1 Pygame.K_LEFT = true -> k1 Pygame.K_SPACE = false ->
  k2 Pygame.K_SPACE = false ->
  (t1 - p.(timer) <= inject_Z c.(SLOWEST_FREQUENCY))%Q ->
  (t2 - p.(timer) <= inject_Z c.(SLOWEST_FREQUENCY))%Q ->
  exists p1 p2, update c k1 t1 dt1 p = inr (tt, p1) /\ update c k2 t2 dt2 p1 = inr (tt, p2) /\
    p1.(direction) = c.(LEFT) /\ p1.(index) = p.(index) /\
    p1.(image) = walking_cell walk p.(index) /\
    p2.(index) = p.(index) /\ p2.(image) = mirror (walking_cell walk p.(index)).
Proof.
  intros Hr Hf Hw Hd Hx R1 L1 S1 S2 T1 T2. pose proof Hc as (_ & _ & _ & Hrl).
  pose proof Hr as (_ & _ & _ & Hidx & Hst & Hdir & Hi & Ht & Hxa & _).
  assert (Hl : a_loc a = Walking) by (apply (enc_loc_inj c); simpl; congruence).
  assert (Hda : a_dir a = FaceRight) by (apply (enc_dir_inj c); [done|simpl; congruence]).
  assert (Hx0 : a_xv a = 0%Q) by congruence.
  rewrite Ht in T1, T2.
  assert (E1 : astep_fn 11 c.(SLOWEST_FREQUENCY) c.(START_JUMP_VEL) (keys_input k1 t1 dt1) a =
    {| a_loc := Walking; a_dir := FaceLeft; a_cursor := a_cursor a; a_timer := a_timer a;
       a_xv := a_xv a; a_vy := a_vy a; a_shown := FWalking FaceRight (a_cursor a) |}).
  { unfold astep_fn, jump_vy, face. rewrite Hl, advances_rest by done.
    cbn [in_time in_right in_left in_space keys_input].
    by rewrite (proj2 (py_gt_false _ _) T1), R1, L1, S1, Hda. }
  destruct (render_step k1 t1 dt1 11 p a Hr Hf) as (p1 & Hu1 & Hr1 & Hf1 & Him1).
  simpl in Hr1, Him1. rewrite E1 in Hr1, Him1.
  destruct (render_step k2 t2 dt2 11 p1 _ Hr1 Hf1) as (p2 & Hu2 & Hr2 & Hf2 & Him2).
  unfold astep_fn, jump_vy in Hr2, Him2. cbn [a_loc a_shown a_cursor a_dir] in Hr2, Him2.
  rewrite advances_rest in Hr2 by done.
  cbn [in_time keys_input a_timer a_cursor] in Hr2.
  rewrite (proj2 (py_gt_false _ _) T2) in Hr2.
  pose proof Hr1 as (_ & _ & _ & _ & _ & Hdir1 & Hi1 & _).
  pose proof Hr2 as (_ & _ & _ & _ & _ & _ & Hi2 & _).
  simpl in Hi1, Hi2, Him1.
  exists p1, p2. split_and!; try done; [congruence| |congruence|].
  - rewrite Him1, <- Hi. by apply (frame_of_walking_cell walk stand jump FaceRight).
  - rewrite Him2, <- Hi. by apply (frame_of_walking_cell walk stand jump FaceLeft).
Qed.

(** (C30) A full walk cycle on screen.  A walking player at rest facing
    [d] gets eleven ticks, each more than [SLOWEST_FREQUENCY] after the
    previous one, none with Jump, none turning it.  The loop renders the
    whole walk cycle for [d] once, in order, starting at the player's
    cursor: the cycle rotated by the cursor. *)
Theorem walk_cycle_renders ticks (p : Player img) a d :
  refines c 11 p a -> init_frames c walk stand jump p ->
  p.(state) = c.(WALKING) -> p.(direction) = enc_dir c d -> p.(x_vel) = 0%Q ->
  paced_ticks c p.(timer) ticks -> length ticks = 11%nat ->
  Forall (keeps_facing d) ticks ->
  exists p', run_frames c ticks p =
    inr (rotate (Z.to_nat p.(index)) (cycle walk d), p').
Proof.
  intros Hr Hf Hw Hd Hx Hp Hn HF. pose proof Hc as (_ & _ & _ & Hrl).
  pose proof Hr as (_ & _ & _ & Hidx & Hst & Hdir & Hi & Ht & Hxa & _).
  assert (Hl : a_loc a = Walking) by (apply (enc_loc_inj c); simpl; congruence).
  assert (Hda : a_dir a = d) by (apply (enc_dir_inj c); congruence).
  assert (Hx0 : a_xv a = 0%Q) by congruence.
  destruct (run_frames_trace ticks 11 p a Hr Hf) as (p' & Hrun). exists p'. rewrite Hrun.
  rewrite shown_trace_paced; [|done|done|lia|by rewrite <- Ht; apply paced_ticks_input|].
  - rewrite length_map, Hn, Hda, <- Hi. by rewrite (rotate_cycle walk stand jump) by lia.
  - apply Forall_map. rewrite Hda. exact HF.
Qed.
End RenderProofs.
