(* ===== verification/Scenarios.v ===== *)
(** * Concrete runs: the theorems at test inputs

    The development is instantiated here with the raster image provider,
    three test sheets and the constants of [constants.py] with the missing
    [JUMPING] added ([consts_fixed]).  [player0] is the player [__init__]
    builds from them.  [run_player] drives it with the game loop.

    Each theorem with hypotheses is applied at one of these players, with
    its hypotheses checked there by evaluation.  The spec's end-to-end
    scenarios are theorems for all inputs ([walk_start_pacing],
    [turn_keeps_phase]); their witnesses here run them at the spec's
    numbers. *)

From S2P Require Import Prelude Constants Image Frames Player Machine Loop Equiv Render.
Open Scope Z_scope.

(** ** Test data *)

(** A sheet whose pixel [(i, j)] is [tag * 10^6 + i * 10^3 + j]. *)
Definition test_sheet (tag w h : Z) : raster :=
  {| rw := w; rh := h; rpx i j := tag * 1000000 + i * 1000 + j |}.

Definition walk_sheet : raster := test_sheet 1 432 194.
Definition stand_sheet : raster := test_sheet 2 66 92.
Definition jump_sheet : raster := test_sheet 3 132 97.

Definition GFX_example : gmap string raster :=
  py_dict [("p1_walking", walk_sheet); ("p1_stand", stand_sheet);
           ("p1_jumping", jump_sheet)].

(** The keyboard with Right, Left and Space pressed or not. *)
Definition keys_of (r l s : bool) : Keys :=
  fun k => if k =? Pygame.K_RIGHT then r
           else if k =? Pygame.K_LEFT then l
           else if k =? Pygame.K_SPACE then s else false.

(** The player [__init__] builds, written out. *)
Definition player0 : Player raster := {|
  state_dict := make_state_dict consts_fixed;
  state := "standing";
  walking_image_dict := py_dict [("right", walking_frames walk_sheet);
                                 ("left", map mirror (walking_frames walk_sheet))];
  standing_image_dict := py_dict [("right", stand_sheet);
                                  ("left", mirror stand_sheet)];
  jumping_image_dict := py_dict [("right", get_image 0 0 66 97 jump_sheet);
                                 ("left", get_image 66 0 66 97 jump_sheet)];
  index := 0; timer := 0%Q; direction := "right";
  x_vel := 0%Q; y_vel := 0%Q; image := stand_sheet;
  rect := get_rect_y stand_sheet 535; image_list := None |}.

(** The player after a sequence of ticks; it stays put if a tick raises. *)
Definition run_player (ticks : list Tick) (p : Player raster) : Player raster :=
  match run_updates consts_fixed ticks p with
  | inr (_, p') => p'
  | inl _ => p
  end.

(** Walking right since [t = 1000]. *)
Definition player_walking : Player raster :=
  run_player [(keys_of true false false, 1000%Q, 16%Q)] player0.

Definition a_walking : AState := {|
  a_loc := Walking; a_dir := FaceRight; a_cursor := 0; a_timer := 1000;
  a_xv := 0; a_vy := 0; a_shown := FStanding FaceRight |}.

(** Jumping after a tick with Space held. *)
Definition player_jumping : Player raster :=
  run_player [(keys_of false false true, 1000%Q, 16%Q)] player0.

Definition a_jumping : AState := {|
  a_loc := Jumping; a_dir := FaceRight; a_cursor := 0; a_timer := 0;
  a_xv := 0; a_vy := -1020; a_shown := FStanding FaceRight |}.

(** ** The concrete players refine their abstract states *)

(** Lazy evaluation only: the frames hold pixel functions, and a strong
    normalisation of them is costly. *)
Ltac eval_index :=
  match goal with
  | |- context [index ?p] =>
      let v := eval vm_compute in (index p) in change (index p) with v
  end.

Ltac concrete_refines :=
  unfold refines; split_and!;
  try (intros d [-> | ->]; split_and!; eexists; try split; reflexivity);
  try reflexivity; try (eval_index; lia); try lia.

Lemma player0_init : Player_init consts_fixed GFX_example = inr player0.
Proof. reflexivity. Qed.

Lemma player0_refines : refines consts_fixed 11 player0 (a_init).
Proof. concrete_refines. Qed.

Lemma player_walking_refines : refines consts_fixed 11 player_walking a_walking.
Proof. concrete_refines. Qed.

Lemma player_jumping_refines : refines consts_fixed 11 player_jumping a_jumping.
Proof. concrete_refines. Qed.

(** Walking, after a second tick that set [self.image_list]. *)
Definition player_walking2 : Player raster :=
  run_player [(keys_of true false false, 1000%Q, 16%Q);
              (keys_of true false false, 1050%Q, 16%Q)] player0.

(** ** The theorems at concrete inputs *)

Lemma update_wf_witness :
  exists p', update consts_fixed (keys_of true true true) 1600%Q 16%Q
               player_walking = inr (tt, p') /\ wf_player consts_fixed p'.
Proof.
  apply (update_wf consts_fixed consts_fixed_wf).
  exact (refines_wf consts_fixed _ _ _ player_walking_refines).
Defined.

Lemma update_refines_witness :
  exists p' a', update consts_fixed (keys_of false true false) 1200%Q 16%Q
                  player_walking = inr (tt, p') /\
    astep 11 100 (-1020) (keys_input (keys_of false true false) 1200%Q 16%Q)
      a_walking a' /\
    refines consts_fixed 11 p' a'.
Proof.
  exact (update_refines consts_fixed consts_fixed_wf _ _ _ _ _ _
           player_walking_refines).
Defined.

Lemma Player_init_spec_witness :
  exists p, Player_init consts_fixed GFX_example = inr p /\
    wf_player consts_fixed p /\ p = player0.
Proof.
  apply (Player_init_spec consts_fixed GFX_example walk_sheet stand_sheet
           jump_sheet); [vm_compute; split_and!; discriminate
                        |reflexivity|reflexivity|reflexivity].
Defined.

Lemma animate_spec_witness :
  animate consts_fixed 1200%Q 16%Q player_walking2 =
  inr (tt,
    if py_gt (1200 - player_walking2.(timer))%Q
         (spec_animation_speed consts_fixed player_walking2.(x_vel) 16%Q)
    then set_index ((player_walking2.(index) + 1) mod
                      Z.of_nat (length (walking_frames walk_sheet)))
           (set_timer 1200%Q player_walking2)
    else player_walking2).
Proof.
  apply (animate_spec consts_fixed); [reflexivity|eval_index; split; [lia|reflexivity]].
Defined.

Lemma update_direction_witness :
  exists p', update consts_fixed (keys_of true true false) 1200%Q 16%Q
               player_walking = inr (tt, p') /\
    p'.(direction) = (if keys_of true true false Pygame.K_RIGHT then "right"
                      else if keys_of true true false Pygame.K_LEFT then "left"
                      else player_walking.(direction)).
Proof.
  exact (update_direction consts_fixed consts_fixed_wf _ _ _ _ _ _
           player_walking_refines).
Defined.

Lemma update_jump_entry_witness :
  exists p', update consts_fixed (keys_of false false true) 1200%Q 16%Q
               player_walking = inr (tt, p') /\
    p'.(state) = "jumping" /\ p'.(y_vel) = inject_Z (-1020).
Proof.
  apply (update_jump_entry consts_fixed consts_fixed_wf _ _ _ 11 _ a_walking);
    [exact player_walking_refines|change (state player_walking) with "walking"; discriminate|reflexivity].
Defined.

Lemma update_standing_witness :
  exists p', update consts_fixed (keys_of true false true) 1200%Q 16%Q
               player0 = inr (tt, p') /\
    p'.(state) = (if keys_of true false true Pygame.K_SPACE then "jumping"
                  else if keys_of true false true Pygame.K_RIGHT ||
                          keys_of true false true Pygame.K_LEFT
                  then "walking" else "standing") /\
    p'.(index) = (if keys_of true false true Pygame.K_RIGHT ||
                     keys_of true false true Pygame.K_LEFT then 0
                  else player0.(index)) /\
    p'.(timer) = (if keys_of true false true Pygame.K_RIGHT ||
                     keys_of true false true Pygame.K_LEFT then 1200%Q
                  else player0.(timer)).
Proof.
  apply (update_standing consts_fixed consts_fixed_wf _ _ _ 11 _ a_init);
    [exact player0_refines|reflexivity].
Defined.

Lemma update_walking_pacing_witness :
  exists p', update consts_fixed (keys_of true false false) 1101%Q 16%Q
               player_walking = inr (tt, p') /\
    p'.(index) = (if py_gt (1101 - player_walking.(timer))%Q (inject_Z 100)
                  then (player_walking.(index) + 1) mod 11
                  else player_walking.(index)) /\
    p'.(timer) = (if py_gt (1101 - player_walking.(timer))%Q (inject_Z 100)
                  then 1101%Q else player_walking.(timer)).
Proof.
  apply (update_walking_pacing consts_fixed consts_fixed_wf _ _ _ 11 _ a_walking);
    [exact player_walking_refines|reflexivity|reflexivity].
Defined.

Lemma update_shows_witness :
  exists p', update consts_fixed (keys_of false true false) 1200%Q 16%Q
               player_walking = inr (tt, p') /\
    (player_walking.(state) = "standing" ->
       player_walking.(standing_image_dict) !! player_walking.(direction)
       = Some p'.(image)) /\
    (player_walking.(state) = "walking" ->
       exists il, player_walking.(walking_image_dict) !!
                    player_walking.(direction) = Some il /\
                  py_getitem il player_walking.(index) = inr p'.(image)) /\
    (player_walking.(state) = "jumping" ->
       player_walking.(jumping_image_dict) !! player_walking.(direction)
       = Some p'.(image)) /\
    same_frames player_walking p' /\ p'.(x_vel) = player_walking.(x_vel).
Proof.
  apply (update_shows consts_fixed consts_fixed_wf _ _ _ 11 _ a_walking).
  exact player_walking_refines.
Defined.

Lemma player_lifetime_witness :
  exists p, run_updates consts_fixed
              [(keys_of true false false, 1000%Q, 16%Q);
               (keys_of false true true, 1100%Q, 16%Q)] player0 = inr (tt, p) /\
    wf_player consts_fixed p /\ 0 <= p.(index) < 11 /\ p.(x_vel) = 0%Q /\
    (p.(state) <> "jumping" -> p.(y_vel) = 0%Q) /\
    (p.(state) = "jumping" -> p.(y_vel) = inject_Z (-1020)).
Proof.
  apply (player_lifetime consts_fixed consts_fixed_wf GFX_example walk_sheet
           stand_sheet jump_sheet); reflexivity.
Defined.

Lemma jump_is_final_witness :
  exists p', run_updates consts_fixed
               [(keys_of true false false, 1100%Q, 16%Q);
                (keys_of false false false, 1200%Q, 16%Q)] player_jumping
             = inr (tt, p') /\
    p'.(state) = "jumping" /\ p'.(y_vel) = player_jumping.(y_vel).
Proof.
  apply (jump_is_final consts_fixed consts_fixed_wf _ 11 _ a_jumping);
    [exact player_jumping_refines|reflexivity].
Defined.

Lemma reachable_inv_witness : a_inv 11 (-1020) a_walking.
Proof.
  apply (reachable_inv 11 100); [lia|].
  apply (reach_step 11 100 (-1020)
           (keys_input (keys_of true false false) 1000%Q 16%Q) (a_init)).
  - constructor.
  - exact (step_standing 11 100 (-1020) _ a_init eq_refl).
Defined.

Lemma jumping_forever_witness :
  let i := keys_input (keys_of true false true) 1100%Q 16%Q in
  let a' := {| a_loc := Jumping; a_dir := FaceRight; a_cursor := 0;
               a_timer := 0; a_xv := 0; a_vy := -1020;
               a_shown := FJumping FaceRight |} in
  a_loc a' = Jumping /\ a_vy a' = a_vy a_jumping.
Proof.
  apply (jumping_forever 11 100 (-1020)
           [keys_input (keys_of true false true) 1100%Q 16%Q] a_jumping);
    [reflexivity|].
  econstructor; [exact (step_jumping 11 100 (-1020) _ a_jumping eq_refl)|].
  constructor.
Defined.

Lemma make_walking_image_dict_spec_witness :
  exists d, make_walking_image_dict consts_fixed GFX_example = inr d /\
    dir_dict_is consts_fixed d (walking_frames walk_sheet)
      (map mirror (walking_frames walk_sheet)) /\
    forall k, is_Some (d !! k) <-> k = "right" \/ k = "left".
Proof.
  exact (make_walking_image_dict_spec consts_fixed GFX_example
           ltac:(vm_compute; discriminate)).
Defined.

Lemma walking_frames_pixels_witness :
  exists wd sd rs ls r l sl,
    make_walking_image_dict consts_fixed GFX_example = inr wd /\
    make_standing_image_dict consts_fixed GFX_example = inr sd /\
    wd !! consts_fixed.(RIGHT) = Some rs /\ wd !! consts_fixed.(LEFT) = Some ls /\
    rs !! 7%nat = Some r /\ ls !! 7%nat = Some l /\
    sd !! consts_fixed.(RIGHT) = Some stand_sheet /\ sd !! consts_fixed.(LEFT) = Some sl /\
    rw r = 72 /\ rh r = 97 /\ rw l = 72 /\ rh l = 97 /\
    (in_bounds walk_sheet (72 * (Z.of_nat 7 mod 6) + 3) (97 * (Z.of_nat 7 / 6) + 4) ->
       rpx r 3 4 = rpx walk_sheet (72 * (Z.of_nat 7 mod 6) + 3) (97 * (Z.of_nat 7 / 6) + 4)) /\
    rpx l 3 4 = rpx r (71 - 3) 4 /\
    rw sl = rw stand_sheet /\ rh sl = rh stand_sheet /\
    rpx sl 3 4 = rpx stand_sheet (rw stand_sheet - 1 - 3) 4.
Proof.
  apply (walking_frames_pixels consts_fixed GFX_example walk_sheet stand_sheet 7 3 4);
    [discriminate|reflexivity|reflexivity|lia].
Defined.

Lemma Player_init_missing_sheet_witness :
  Player_init consts_fixed (delete "p1_stand" GFX_example) =
  inl (KeyError "p1_stand").
Proof.
  apply (proj1 (proj2 (Player_init_missing_sheet consts_fixed
                         (delete "p1_stand" GFX_example))));
    [eexists; reflexivity|reflexivity].
Defined.

Lemma state_coverage_witness :
  (is_Some (make_state_dict consts_fixed !! "free fall") <->
     is_state consts_fixed "free fall") /\
  make_state_dict consts_fixed !! "standing" = Some M_standing /\
  make_state_dict consts_fixed !! "walking" = Some M_walking /\
  make_state_dict consts_fixed !! "jumping" = Some M_jumping.
Proof. exact (state_coverage consts_fixed consts_fixed_wf "free fall"). Defined.

Lemma make_jumping_image_dict_spec_witness :
  exists d, make_jumping_image_dict consts_fixed GFX_example = inr d /\
    dir_dict_is consts_fixed d (get_image 0 0 66 97 jump_sheet)
      (get_image 66 0 66 97 jump_sheet) /\
    forall k, is_Some (d !! k) <-> k = "right" \/ k = "left".
Proof.
  exact (make_jumping_image_dict_spec consts_fixed GFX_example
           ltac:(vm_compute; discriminate)).
Defined.

Lemma run_updates_refines_witness :
  exists p' a', run_updates consts_fixed
                  [(keys_of true false false, 1000%Q, 16%Q);
                   (keys_of false true false, 1200%Q, 16%Q)] player0
                = inr (tt, p') /\
    asteps 11 100 (-1020)
      (map tick_input [(keys_of true false false, 1000%Q, 16%Q);
                       (keys_of false true false, 1200%Q, 16%Q)]) a_init a' /\
    refines consts_fixed 11 p' a'.
Proof.
  exact (run_updates_refines consts_fixed consts_fixed_wf _ 11 player0 a_init
           player0_refines).
Defined.

Lemma update_ignores_jump_button_witness :
  update consts_fixed (keys_of true false false) 1200%Q 16%Q player_walking =
  update consts_fixed (fun k => if k =? Pygame.K_a then true
                                else keys_of true false false k)
    1200%Q 16%Q player_walking.
Proof.
  apply update_ignores_jump_button.
  intros k Hk. simpl. destruct (Z.eqb_spec k Pygame.K_a); [done|reflexivity].
Defined.


Lemma update_unknown_state_witness :
  update consts_fixed (keys_of false false false) 1200%Q 16%Q
    (set_state "free fall" player0) = inl (KeyError "free fall").
Proof.
  apply (update_unknown_state consts_fixed); [reflexivity|].
  vm_compute. intros [E|[E|E]]; discriminate.
Defined.

Lemma walking_index_error_witness :
  walking consts_fixed (keys_of true false false) 1200%Q 16%Q
    (set_index 11 player_walking) = inl (IndexError "list index out of range").
Proof.
  apply (walking_index_error consts_fixed _ _ _ _ (walking_frames walk_sheet));
    [reflexivity|right; rewrite length_walking_frames; cbn [index set_index]; lia].
Defined.

Lemma update_state_table_witness :
  exists p', update consts_fixed (keys_of false false false) 1200%Q 16%Q
               player_walking = inr (tt, p') /\
    (player_walking.(state) = "standing" ->
       p'.(state) = if keys_of false false false Pygame.K_SPACE then "jumping"
                    else if keys_of false false false Pygame.K_RIGHT ||
                            keys_of false false false Pygame.K_LEFT
                    then "walking" else "standing") /\
    (player_walking.(state) = "walking" ->
       p'.(state) = if keys_of false false false Pygame.K_SPACE then "jumping"
                    else "walking") /\
    (player_walking.(state) = "jumping" -> p'.(state) = "jumping").
Proof.
  exact (update_state_table consts_fixed consts_fixed_wf _ _ _ _ _ _
           player_walking_refines).
Defined.

Lemma update_jumping_witness :
  exists p', update consts_fixed (keys_of false true false) 1200%Q 16%Q
               player_jumping = inr (tt, p') /\
    p'.(state) = "jumping" /\ p'.(index) = player_jumping.(index) /\
    p'.(timer) = player_jumping.(timer) /\ p'.(y_vel) = player_jumping.(y_vel) /\
    player_jumping.(jumping_image_dict) !! player_jumping.(direction)
      = Some p'.(image).
Proof.
  apply (update_jumping consts_fixed consts_fixed_wf _ _ _ 11 _ a_jumping);
    [exact player_jumping_refines|reflexivity].
Defined.

(** The timer of a concrete player, evaluated, and the clock constant. *)
Ltac eval_timer :=
  match goal with
  | |- context [timer ?p] =>
      let v := eval vm_compute in (timer p) in change (timer p) with v
  end.

Ltac q_close := change (SLOWEST_FREQUENCY consts_fixed) with 100; unfold inject_Z; lra.

Lemma pacing_gate_witness :
  exists p1 p2, run_updates consts_fixed
                  [(keys_of true false false, 1050%Q, 16%Q);
                   (keys_of false true false, 1100%Q, 16%Q)] player_walking
                = inr (tt, p1) /\
    p1.(state) = "walking" /\ p1.(index) = player_walking.(index) /\
    p1.(timer) = player_walking.(timer) /\
    update consts_fixed (keys_of false false false) 1101%Q 16%Q p1
      = inr (tt, p2) /\
    p2.(index) = (player_walking.(index) + 1) mod Z.of_nat 11 /\
    p2.(timer) = 1101%Q.
Proof.
  apply (pacing_gate consts_fixed consts_fixed_wf
           [(keys_of true false false, 1050%Q, 16%Q);
            (keys_of false true false, 1100%Q, 16%Q)]
           (keys_of false false false) 1101%Q 16%Q 11 player_walking a_walking);
    [exact player_walking_refines|reflexivity|reflexivity| |].
  - eval_timer. constructor; [|constructor; [|constructor]].
    all: split; [reflexivity|q_close].
  - eval_timer. q_close.
Defined.

Lemma walk_cycle_paced_witness :
  exists p', run_updates consts_fixed
               [(keys_of true false false, 1101%Q, 16%Q);
                (keys_of false false false, 1202%Q, 16%Q);
                (keys_of false true false, 1303%Q, 16%Q)] player_walking
             = inr (tt, p') /\
    p'.(state) = "walking" /\
    p'.(index) = (player_walking.(index) + Z.of_nat 3) mod Z.of_nat 11.
Proof.
  apply (walk_cycle_paced consts_fixed consts_fixed_wf
           [(keys_of true false false, 1101%Q, 16%Q);
            (keys_of false false false, 1202%Q, 16%Q);
            (keys_of false true false, 1303%Q, 16%Q)] 11 player_walking a_walking);
    [exact player_walking_refines|reflexivity|reflexivity|].
  eval_timer. cbn [paced_ticks]. split_and!; try reflexivity; q_close.
Defined.

(** A walking player with a horizontal velocity, which no code of the
    repository sets: the spec's extension point. *)
Definition with_x_vel (v : Q) (p : Player raster) : Player raster :=
  mkPlayer p.(state_dict) p.(state) p.(walking_image_dict)
    p.(standing_image_dict) p.(jumping_image_dict) p.(index) p.(timer)
    p.(direction) v p.(y_vel) p.(image) p.(rect) p.(image_list).

Lemma animate_fast_always_advances_witness :
  animate consts_fixed 1050%Q 16%Q (with_x_vel 10 player_walking2) =
  inr (tt, set_index
    (if (with_x_vel 10 player_walking2).(index) <?
        Z.of_nat (length (walking_frames walk_sheet)) - 1
     then (with_x_vel 10 player_walking2).(index) + 1 else 0)
    (set_timer 1050%Q (with_x_vel 10 player_walking2))).
Proof.
  apply (animate_fast_always_advances consts_fixed); [reflexivity| |].
  - change (x_vel (with_x_vel 10 player_walking2)) with 10%Q. by vm_compute.
  - eval_timer. unfold inject_Z; lra.
Defined.

Lemma run_updates_trace_witness :
  exists p', run_updates consts_fixed [(keys_of true false false, 1000%Q, 16%Q)]
               player0 = inr (tt, p') /\
    refines consts_fixed 11 p' a_walking.
Proof.
  apply (run_updates_trace consts_fixed consts_fixed_wf
           [(keys_of true false false, 1000%Q, 16%Q)] 11 player0 a_init a_walking);
    [exact player0_refines|].
  econstructor; [apply step_standing; reflexivity|constructor].
Defined.

(** The walking sheet with other pixels outside its bounds. *)
Definition walk_sheet' : raster := {|
  rw := 432; rh := 194;
  rpx i j := if decide (in_bounds walk_sheet i j) then rpx walk_sheet i j else 7 |}.

Lemma walk_sheet_equiv : raster_equiv walk_sheet walk_sheet'.
Proof. split_and!; [done|done|]. intros i j Hin. simpl. by rewrite decide_True. Qed.


Lemma update_by_match_equiv_witness :
  update consts_fixed (keys_of true false false) 1200%Q 16%Q player_walking =
  update_by_match consts_fixed (keys_of true false false) 1200%Q 16%Q player_walking.
Proof.
  apply (update_by_match_equiv consts_fixed consts_fixed_wf). reflexivity.
Defined.

Lemma timer_from_clock_witness :
  exists p', run_updates consts_fixed
               [(keys_of true false false, 1101%Q, 16%Q);
                (keys_of false false false, 1150%Q, 16%Q)] player_walking
             = inr (tt, p') /\
    (p'.(timer) = player_walking.(timer) \/
     exists keys t dt, (keys, t, dt) ∈ [(keys_of true false false, 1101%Q, 16%Q);
                                        (keys_of false false false, 1150%Q, 16%Q)] /\
       p'.(timer) = t).
Proof.
  exact (timer_from_clock consts_fixed consts_fixed_wf _ 11 _ a_walking
           player_walking_refines).
Defined.

(** The example sheets, with the walking sheet replaced by an equivalent one. *)
Definition GFX_example' : gmap string raster :=
  py_dict [("p1_walking", walk_sheet'); ("p1_stand", stand_sheet);
           ("p1_jumping", jump_sheet)].

Definition ticks_example : list Tick :=
  [(keys_of true false false, 1000%Q, 16%Q); (keys_of true false false, 1110%Q, 16%Q);
   (keys_of false true true, 1220%Q, 16%Q)].

Lemma play_equivalent_sheets_witness :
  res_rel (pair_rel (Forall2 img_equiv) player_rel)
    (play consts_fixed GFX_example ticks_example)
    (play consts_fixed GFX_example' ticks_example).
Proof.
  apply play_equivalent_sheets. apply py_dict_rel.
  constructor; [split; [reflexivity|exact walk_sheet_equiv]|].
  constructor; [split; reflexivity|].
  constructor; [split; reflexivity|]. constructor.
Defined.

Lemma next_frame_within_witness :
  (forall k, (k < frame_wait consts_fixed 30)%nat ->
     exists pk, run_updates consts_fixed
                  (steady_ticks (keys_of false false false) player_walking.(timer) 30 16 k)
                  player_walking = inr (tt, pk) /\
       pk.(state) = "walking" /\ pk.(index) = player_walking.(index)) /\
  exists p', run_updates consts_fixed
               (steady_ticks (keys_of false false false) player_walking.(timer) 30 16
                  (frame_wait consts_fixed 30)) player_walking = inr (tt, p') /\
    p'.(state) = "walking" /\ p'.(index) = (player_walking.(index) + 1) mod Z.of_nat 11.
Proof.
  apply (next_frame_within consts_fixed consts_fixed_wf (keys_of false false false) 30 16 11
           player_walking a_walking);
    [exact player_walking_refines|reflexivity|reflexivity|reflexivity|lra].
Defined.

(** With [SLOWEST_FREQUENCY = 100] and a clock moving 30 per tick, the next
    frame comes on the fourth tick. *)
Lemma frame_wait_example : frame_wait consts_fixed 30 = 4%nat.
Proof. reflexivity. Qed.

Lemma play_renders_table_witness :
  exists p, play consts_fixed GFX_example ticks_example =
    inr (map (frame_of walk_sheet stand_sheet jump_sheet)
           (shown_trace 11 100 (-1020) (map tick_input ticks_example) a_init), p).
Proof.
  apply (play_renders_table consts_fixed walk_sheet stand_sheet jump_sheet
           consts_fixed_wf GFX_example ticks_example); reflexivity.
Defined.

(** The table's trace on [ticks_example]: the standing pose, then walk
    frames 0 and 1 (the third tick jumps, but shows the frame of its start). *)
Lemma shown_trace_example :
  shown_trace 11 100 (-1020) (map tick_input ticks_example) a_init =
  [FStanding FaceRight; FWalking FaceRight 0; FWalking FaceRight 1].
Proof. vm_compute. reflexivity. Qed.

Lemma walk_start_pacing_witness :
  exists p0 p1 p2 p3,
    Player_init consts_fixed GFX_example = inr p0 /\
    update consts_fixed (keys_of true false false) 1000 16 p0 = inr (tt, p1) /\
    update consts_fixed (keys_of true false false) 1100 16 p1 = inr (tt, p2) /\
    update consts_fixed (keys_of true false false) 1101 16 p2 = inr (tt, p3) /\
    p1.(state) = consts_fixed.(WALKING) /\ p1.(direction) = consts_fixed.(RIGHT) /\
    p1.(index) = 0 /\ p1.(timer) = 1000%Q /\
    p2.(state) = consts_fixed.(WALKING) /\ p2.(direction) = consts_fixed.(RIGHT) /\
    p2.(index) = 0 /\ p2.(timer) = 1000%Q /\
    p3.(state) = consts_fixed.(WALKING) /\ p3.(direction) = consts_fixed.(RIGHT) /\
    p3.(index) = 1 /\ p3.(timer) = 1101%Q.
Proof.
  apply (walk_start_pacing consts_fixed consts_fixed_wf GFX_example walk_sheet stand_sheet
           jump_sheet (keys_of true false false) (keys_of true false false)
           (keys_of true false false) 1000 1100 1101 16 16 16);
    try reflexivity; q_close.
Defined.

Lemma turn_keeps_phase_witness :
  exists p1 p2,
    update consts_fixed (keys_of false true false) 1050 16 player_walking = inr (tt, p1) /\
    update consts_fixed (keys_of false false false) 1100 16 p1 = inr (tt, p2) /\
    p1.(direction) = consts_fixed.(LEFT) /\ p1.(index) = player_walking.(index) /\
    p1.(image) = walking_cell walk_sheet player_walking.(index) /\
    p2.(index) = player_walking.(index) /\
    p2.(image) = mirror (walking_cell walk_sheet player_walking.(index)).
Proof.
  apply (turn_keeps_phase consts_fixed walk_sheet stand_sheet jump_sheet consts_fixed_wf
           (keys_of false true false) (keys_of false false false) 1050 1100 16 16
           player_walking a_walking);
    [exact player_walking_refines|split_and!; reflexivity|reflexivity..| |];
    eval_timer; q_close.
Defined.

Lemma walk_cycle_renders_witness :
  exists p', run_frames consts_fixed (steady_ticks (keys_of true false false) 1000 101 16 11)
               player_walking =
    inr (rotate (Z.to_nat player_walking.(index)) (cycle walk_sheet FaceRight), p').
Proof.
  apply (walk_cycle_renders consts_fixed walk_sheet stand_sheet jump_sheet consts_fixed_wf
           (steady_ticks (keys_of true false false) 1000 101 16 11)
           player_walking a_walking FaceRight);
    [exact player_walking_refines|split_and!; reflexivity|reflexivity|reflexivity|reflexivity
    | |reflexivity|].
  - eval_timer. vm_compute. repeat split; reflexivity.
  - vm_compute. repeat constructor.
Defined.
